(** * govips, vips/foreign.go: format sniffing and the buffer loader

    A shallow embedding of [DetermineImageType] and its detectors, of
    [bmpToPNG] and of [vipsLoadFromBuffer], followed by the properties the
    specification states about them.

    Conventions.
    - A Go [[]byte] is a [list byte]; its capacity is taken equal to its
      length, the least favourable case for a slice expression.
    - A run-time panic (slice bounds out of range, index out of range, an
      explicit [panic]) is an explicit outcome, never a stuck term.
    - Foreign calls, the two image codecs, the XML decoder, the logger and
      the capability table live outside foreign.go: they are the fields of
      the record [World], and every capability check, log message and
      foreign load call is recorded in a trace. *)

From Stdlib Require Import List Bool Arith ZArith Lia String Floats.
From Stdlib Require Import Strings.Byte.
Import ListNotations.

(** ** Byte slices *)

Definition bytes := list byte.

(** [bytes.Equal]. *)
Fixpoint Equal (a b : bytes) : bool :=
  match a, b with
  | [], [] => true
  | x :: a', y :: b' => Byte.eqb x y && Equal a' b'
  | _, _ => false
  end.

(** [bytes.HasPrefix]. *)
Fixpoint HasPrefix (s prefix : bytes) : bool :=
  match prefix, s with
  | [], _ => true
  | p :: prefix', x :: s' => Byte.eqb x p && HasPrefix s' prefix'
  | _ :: _, [] => false
  end.

(** [bytes.Contains]: some suffix of [b] starts with [subslice]. *)
Fixpoint Contains (b subslice : bytes) : bool :=
  HasPrefix b subslice ||
  match b with
  | [] => false
  | _ :: b' => Contains b' subslice
  end.

(** [len(buf)]. *)
Definition len (buf : bytes) : nat := List.length buf.

(** The slice expression [buf[lo:hi]].  Go panics unless
    [0 <= lo <= hi <= cap(buf)]; [None] is that panic. *)
Definition slice (buf : bytes) (lo hi : nat) : option bytes :=
  if (lo <=? hi) && (hi <=? len buf)
  then Some (firstn (hi - lo) (skipn lo buf))
  else None.

(** Sequencing of computations that may panic. *)
Definition obind {A B} (m : option A) (k : A -> option B) : option B :=
  match m with
  | Some a => k a
  | None => None
  end.

Notation "x <-? m ; k" := (obind m (fun x => k))
  (at level 61, m at next level, right associativity).

(** Go's short-circuit [a && b] and [a || b] over operands that may panic:
    the right operand is evaluated only when the left one does not decide. *)
Definition oand (a b : option bool) : option bool :=
  x <-? a ; if x then b else Some false.

Definition oor (a b : option bool) : option bool :=
  x <-? a ; if x then Some true else b.

(** ** Format tags *)

(** The enumeration behind [type ImageType int]: one constructor per
    constant of the const block, which takes its values from the enum of
    foreign.h. *)
Inductive ImageType : Type :=
| ImageTypeUnknown
| ImageTypeGIF
| ImageTypeJPEG
| ImageTypeMagick
| ImageTypePDF
| ImageTypePNG
| ImageTypeSVG
| ImageTypeTIFF
| ImageTypeWEBP
| ImageTypeHEIF
| ImageTypeBMP.

Definition ImageType_eq_dec (a b : ImageType) : {a = b} + {a <> b}.
Proof. decide equality. Defined.

Definition ImageType_eqb (a b : ImageType) : bool :=
  if ImageType_eq_dec a b then true else false.

(** ** Signatures *)

Definition jpeg : bytes := [xff; xd8; xff].
Definition gifHeader : bytes := [x47; x49; x46].
Definition pngHeader : bytes := [x89; x50; x4e; x47].
Definition tifII : bytes := [x49; x49; x2a; x00].
Definition tifMM : bytes := [x4d; x4d; x00; x2a].
Definition webpHeader : bytes := [x57; x45; x42; x50].
Definition ftyp : bytes := Eval cbv in list_byte_of_string "ftyp".
Definition heic : bytes := Eval cbv in list_byte_of_string "heic".
Definition mif1 : bytes := Eval cbv in list_byte_of_string "mif1".
Definition msf1 : bytes := Eval cbv in list_byte_of_string "msf1".
Definition avif : bytes := Eval cbv in list_byte_of_string "avif".
Definition svg : bytes := Eval cbv in list_byte_of_string "<svg".
Definition pdf : bytes := [x25; x50; x44; x46].
Definition bmpHeader : bytes := Eval cbv in list_byte_of_string "BM".

(** ** Detectors *)

Definition isJPEG (buf : bytes) : bool := HasPrefix buf jpeg.
Definition isGIF (buf : bytes) : bool := HasPrefix buf gifHeader.
Definition isPNG (buf : bytes) : bool := HasPrefix buf pngHeader.
Definition isTIFF (buf : bytes) : bool :=
  HasPrefix buf tifII || HasPrefix buf tifMM.

(** [bytes.Equal(buf[lo:hi], pat)]. *)
Definition sliceEqual (buf : bytes) (lo hi : nat) (pat : bytes) : option bool :=
  s <-? slice buf lo hi ; Some (Equal s pat).

Definition isWEBP (buf : bytes) : option bool :=
  sliceEqual buf 8 12 webpHeader.

Definition isHEIF (buf : bytes) : option bool :=
  oand (sliceEqual buf 4 8 ftyp)
       (oor (sliceEqual buf 8 12 heic)
       (oor (sliceEqual buf 8 12 avif)
       (oor (sliceEqual buf 8 12 mif1)
            (sliceEqual buf 8 12 msf1)))).

Definition isPDF (buf : bytes) : bool := HasPrefix buf pdf.
Definition isBMP (buf : bytes) : bool := HasPrefix buf bmpHeader.

(** What [decoder.Decode(data)] leaves behind in [isSVG]: the error it
    returns ([true] when it is not nil) and the local name stored in
    [data.XMLName]. *)
Record xmlDecoded : Type := mkXmlDecoded {
  decodeFailed : bool;
  XMLName_Local : string
}.

Section Sniffer.

(** The non-strict, charset-aware [encoding/xml] decoder run over a whole
    buffer. *)
Variable xmlDecode : bytes -> xmlDecoded.

(** [int(math.Min(1024.0, float64(len(buf))))] is [min 1024 (len buf)]: a
    length below 1024 converts to float64 and back exactly, and any other
    length yields 1024. *)
Definition isSVG (buf : bytes) : option bool :=
  sub <-? slice buf 0 (Nat.min 1024 (len buf)) ;
  if Contains sub svg then
    let data := xmlDecode buf in
    Some (negb (decodeFailed data) && String.eqb (XMLName_Local data) "svg")
  else Some false.

Definition DetermineImageType (buf : bytes) : option ImageType :=
  if len buf <? 12 then Some ImageTypeUnknown
  else if isJPEG buf then Some ImageTypeJPEG
  else if isPNG buf then Some ImageTypePNG
  else if isGIF buf then Some ImageTypeGIF
  else if isTIFF buf then Some ImageTypeTIFF
  else
    w <-? isWEBP buf ;
    if w then Some ImageTypeWEBP
    else
      h <-? isHEIF buf ;
      if h then Some ImageTypeHEIF
      else
        s <-? isSVG buf ;
        if s then Some ImageTypeSVG
        else if isPDF buf then Some ImageTypePDF
        else if isBMP buf then Some ImageTypeBMP
        else Some ImageTypeUnknown.

End Sniffer.

(** ** Decode configuration *)

Record importParams : Type := mkImportParams {
  shrink : Z;
  fail : bool;
  autorotate : bool;
  page : Z;
  n : Z;
  scale : float;
  subifd : Z;
  dpi : float;
  unlimited : bool;
  thumbnail : bool;
  density : string
}.

Record ImportOptions : Type := mkImportOptions {
  imageType : ImageType;
  params : importParams
}.

(** An [ImportOption] is a function taking a pointer to the
    [ImportOptions] being built: it updates that record, which is state
    passing here. *)
Definition ImportOption : Type := ImportOptions -> ImportOptions.

(** The literal of lines 190-207; [sniffed] is the tag
    [DetermineImageType] returned. *)
Definition defaultOptions (sniffed : ImageType) : ImportOptions :=
  {| imageType := ImageTypeUnknown;
     params := {| shrink := 1;
                  fail := false;
                  autorotate := ImageType_eqb sniffed ImageTypeHEIF;
                  page := 0;
                  n := 1;
                  scale := 1%float;
                  subifd := -1;
                  dpi := 72%float;
                  unlimited := false;
                  thumbnail := false;
                  density := "72x72" |} |}.

(** [for _, option := range o { option(&options) }]. *)
Definition applyOptions (o : list ImportOption) (options : ImportOptions)
  : ImportOptions :=
  fold_left (fun acc option => option acc) o options.

(** Lines 216-219: the override wins unless it is still [ImageTypeUnknown]. *)
Definition overrideImageType (sniffed : ImageType) (options : ImportOptions)
  : ImageType :=
  if ImageType_eqb (imageType options) ImageTypeUnknown
  then sniffed
  else imageType options.

(** ** Foreign calls *)

(** [C.int(x)] for a Go [int]: the low 32 bits, read as signed. *)
Definition C_int (x : Z) : Z := ((x + 2 ^ 31) mod 2 ^ 32 - 2 ^ 31)%Z.

(** One constructor per load primitive of foreign.h, with the arguments the
    switch of [vipsLoadFromBuffer] passes after the buffer and before or
    after the [out] pointer. *)
Inductive native_call : Type :=
| load_jpeg_buffer (src : bytes) (shrink fail autorotate : Z)
| load_png_buffer (src : bytes)
| load_webp_buffer (src : bytes) (shrink : Z)
| load_tiff_buffer (src : bytes) (page n autorotate subifd : Z)
| load_gif_buffer (src : bytes) (page n : Z)
| load_pdf_buffer (src : bytes) (page n : Z) (dpi scale : float)
| load_svg_buffer (src : bytes) (dpi scale : float) (unlimited : Z)
| load_heif_buffer (src : bytes) (page n thumbnail : Z)
| load_magick_buffer (src : bytes) (page n : Z) (density : string).

(** The format a load primitive decodes. *)
Definition call_format (c : native_call) : ImageType :=
  match c with
  | load_jpeg_buffer _ _ _ _ => ImageTypeJPEG
  | load_png_buffer _ => ImageTypePNG
  | load_webp_buffer _ _ => ImageTypeWEBP
  | load_tiff_buffer _ _ _ _ _ => ImageTypeTIFF
  | load_gif_buffer _ _ _ => ImageTypeGIF
  | load_pdf_buffer _ _ _ _ _ => ImageTypePDF
  | load_svg_buffer _ _ _ _ => ImageTypeSVG
  | load_heif_buffer _ _ _ _ => ImageTypeHEIF
  | load_magick_buffer _ _ _ _ => ImageTypeMagick
  end.

(** The buffer a load primitive is handed. *)
Definition call_src (c : native_call) : bytes :=
  match c with
  | load_jpeg_buffer src _ _ _ | load_png_buffer src | load_webp_buffer src _
  | load_tiff_buffer src _ _ _ _ | load_gif_buffer src _ _
  | load_pdf_buffer src _ _ _ _ | load_svg_buffer src _ _ _
  | load_heif_buffer src _ _ _ | load_magick_buffer src _ _ _ => src
  end.

(** The two messages [vipsLoadFromBuffer] hands to [govipsLog]. *)
Inductive logged : Type :=
| LogFailedToUnderstand (size : nat)
| LogPdfOptions (page n : Z) (dpi scale : float).

(** What [vipsLoadFromBuffer] does to the world, in order. *)
Inductive event : Type :=
| EvIsTypeSupported (t : ImageType)
| EvLog (m : logged)
| EvLoad (c : native_call).

(** ** Computations with a trace and a possible panic *)

Inductive outcome (E A : Type) : Type :=
| Return (a : A)
| PanicIndexOutOfRange
| PanicSliceBounds
| PanicValue (e : E).

Arguments Return {E A} a.
Arguments PanicIndexOutOfRange {E A}.
Arguments PanicSliceBounds {E A}.
Arguments PanicValue {E A} e.

Definition M (E A : Type) : Type := list event * outcome E A.

Definition ret {E A} (a : A) : M E A := ([], Return a).

Definition bind {E A B} (m : M E A) (k : A -> M E B) : M E B :=
  match m with
  | (tr, Return a) => let (tr', r) := k a in (tr ++ tr', r)
  | (tr, PanicIndexOutOfRange) => (tr, PanicIndexOutOfRange)
  | (tr, PanicSliceBounds) => (tr, PanicSliceBounds)
  | (tr, PanicValue e) => (tr, PanicValue e)
  end.

Notation "x <- m ;; k" := (bind m (fun x => k))
  (at level 61, m at next level, right associativity).
Notation "m ;; k" := (bind m (fun _ => k))
  (at level 61, right associativity).

Definition tell {E} (ev : event) : M E unit := ([ev], Return tt).

(** A detector that panics makes its caller panic. *)
Definition liftSlice {E A} (m : option A) : M E A :=
  match m with
  | Some a => ret a
  | None => ([], PanicSliceBounds)
  end.

(** [&src[0]]: index 0 must exist. *)
Definition addrOfFirst {E} (src : bytes) : M E unit :=
  match src with
  | [] => ([], PanicIndexOutOfRange)
  | _ :: _ => ret tt
  end.

Definition trace {E A} (m : M E A) : list event := fst m.
Definition result {E A} (m : M E A) : outcome E A := snd m.

(** ** The world around the loader *)

(** Everything [vipsLoadFromBuffer] calls that is not in foreign.go.
    [Image] is a decoded [image.Image], [VipsImage] what a non-nil
    [*C.VipsImage] points to and [GoError] a non-nil [error]; a Go [error]
    is an [option GoError], a handle an [option VipsImage], nil being
    [None]. *)
Record World (Image VipsImage GoError : Type) : Type := mkWorld {
  (** the XML decoder of [isSVG] *)
  xmlDecode : bytes -> xmlDecoded;
  (** the capability table: a Go map read with a missing key gives false *)
  supportedImageTypes : ImageType -> bool;
  (** [bmp.Decode] over a reader of the buffer *)
  bmp_Decode : bytes -> Image + GoError;
  (** [png.Encode]: the bytes it wrote and the error it returned *)
  png_Encode : Image -> bytes * option GoError;
  (** a load primitive: its status code and what it left in [out] *)
  native : native_call -> Z * option VipsImage;
  handleImageError : option VipsImage -> option GoError;
  ErrUnsupportedImageFormat : GoError;
  boolToInt : bool -> Z
}.

Arguments mkWorld {Image VipsImage GoError}.
Arguments xmlDecode {Image VipsImage GoError} w buf.
Arguments supportedImageTypes {Image VipsImage GoError} w t.
Arguments bmp_Decode {Image VipsImage GoError} w src.
Arguments png_Encode {Image VipsImage GoError} w img.
Arguments native {Image VipsImage GoError} w c.
Arguments handleImageError {Image VipsImage GoError} w out.
Arguments ErrUnsupportedImageFormat {Image VipsImage GoError} w.
Arguments boolToInt {Image VipsImage GoError} w b.

Section Loader.

Variables Image VipsImage GoError : Type.
Variable W : World Image VipsImage GoError.

Let error : Type := option GoError.
Let handle : Type := option VipsImage.
Let Mw : Type -> Type := M GoError.

(** [IsTypeSupported]: [startupIfNeeded] fills the table once, then the
    table is read. *)
Definition IsTypeSupported (t : ImageType) : Mw bool :=
  tell (EvIsTypeSupported t) ;;
  ret (supportedImageTypes W t).

Definition govipsLog (m : logged) : Mw unit := tell (EvLog m).

(** A foreign load call: [out] starts nil, the primitive returns its code
    and may set [out]. *)
Definition callNative (c : native_call) : Mw (Z * handle) :=
  tell (EvLoad c) ;;
  ret (native W c).

Definition bmpToPNG (src : bytes) : bytes * error :=
  match bmp_Decode W src with
  | inr err => ([], Some err)
  | inl i =>
      let (w, err) := png_Encode W i in
      match err with
      | Some e => ([], Some e)
      | None => (w, None)
      end
  end.

(** The switch of lines 237-272. *)
Definition loadByType (t : ImageType) (src : bytes) (options : ImportOptions)
  : Mw (Z * handle) :=
  let p := params options in
  let b2i (b : bool) := C_int (boolToInt W b) in
  match t with
  | ImageTypeJPEG =>
      addrOfFirst src ;;
      callNative (load_jpeg_buffer src (C_int (shrink p)) (b2i (fail p))
                                   (b2i (autorotate p)))
  | ImageTypePNG =>
      addrOfFirst src ;;
      callNative (load_png_buffer src)
  | ImageTypeWEBP =>
      addrOfFirst src ;;
      callNative (load_webp_buffer src (C_int (shrink p)))
  | ImageTypeTIFF =>
      addrOfFirst src ;;
      callNative (load_tiff_buffer src (C_int (page p)) (C_int (n p))
                                   (b2i (autorotate p)) (C_int (subifd p)))
  | ImageTypeGIF =>
      addrOfFirst src ;;
      callNative (load_gif_buffer src (C_int (page p)) (C_int (n p)))
  | ImageTypePDF =>
      govipsLog (LogPdfOptions (page p) (n p) (dpi p) (scale p)) ;;
      addrOfFirst src ;;
      callNative (load_pdf_buffer src (C_int (page p)) (C_int (n p))
                                  (dpi p) (scale p))
  | ImageTypeSVG =>
      addrOfFirst src ;;
      callNative (load_svg_buffer src (dpi p) (scale p) (b2i (unlimited p)))
  | ImageTypeHEIF =>
      addrOfFirst src ;;
      callNative (load_heif_buffer src (C_int (page p)) (C_int (n p))
                                   (b2i (thumbnail p)))
  | ImageTypeMagick =>
      addrOfFirst src ;;
      callNative (load_magick_buffer src (C_int (page p)) (C_int (n p))
                                     (density p))
  | ImageTypeUnknown | ImageTypeBMP =>
      ([], PanicValue (ErrUnsupportedImageFormat W))
  end.

(** Lines 230-278: the capability check, the switch and the two returns
    after it, for the buffer and the tag that reach them. *)
Definition checkAndLoad (t : ImageType) (src : bytes) (options : ImportOptions)
  : Mw (handle * ImageType * error) :=
  ok <- IsTypeSupported t ;;
  if negb ok then
    govipsLog (LogFailedToUnderstand (len src)) ;;
    ret (None, ImageTypeUnknown, Some (ErrUnsupportedImageFormat W))
  else
    r <- loadByType t src options ;;
    let (code, out) := r in
    if negb (code =? 0)%Z then
      ret (None, ImageTypeUnknown, handleImageError W out)
    else
      ret (out, t, None).

(** The options after every mutator has run (lines 190-211). *)
Definition resolveOptions (sniffed : ImageType) (o : list ImportOption)
  : ImportOptions :=
  applyOptions o (defaultOptions sniffed).

(** Lines 221-228: a BMP buffer is replaced by its PNG transcoding and the
    tag by [ImageTypePNG]; a failed transcoding is the error to return. *)
Definition preprocess (t : ImageType) (src : bytes)
  : (bytes * ImageType) + GoError :=
  if ImageType_eqb t ImageTypeBMP then
    let (src', err) := bmpToPNG src in
    match err with
    | Some e => inr e
    | None => inl (src', ImageTypePNG)
    end
  else inl (src, t).

Definition vipsLoadFromBuffer (buf : bytes) (o : list ImportOption)
  : Mw (handle * ImageType * error) :=
  let src := buf in
  sniffed <- liftSlice (DetermineImageType (xmlDecode W) buf) ;;
  let options := resolveOptions sniffed o in
  let t := overrideImageType sniffed options in
  match preprocess t src with
  | inr err => ret (None, ImageTypeUnknown, Some err)
  | inl (src', t') => checkAndLoad t' src' options
  end.

End Loader.

Arguments IsTypeSupported {Image VipsImage GoError} W t.
Arguments govipsLog {GoError} m.
Arguments callNative {Image VipsImage GoError} W c.
Arguments bmpToPNG {Image VipsImage GoError} W src.
Arguments loadByType {Image VipsImage GoError} W t src options.
Arguments checkAndLoad {Image VipsImage GoError} W t src options.
Arguments preprocess {Image VipsImage GoError} W t src.
Arguments vipsLoadFromBuffer {Image VipsImage GoError} W buf o.

(** ** The contract of the load primitives and the events of a run *)

(** Modelled from the spec: the load primitives of foreign.c, which the
    specification describes by "success yields the native handle": a
    primitive that returns status 0 has stored a handle in [out]. *)
Definition nativeContract {Image VipsImage GoError : Type}
  (W : World Image VipsImage GoError) : Prop :=
  forall (c : native_call) (out : option VipsImage),
    native W c = (0%Z, out) -> out <> None.

(** What an event of the capability check and of the dispatch may be when
    they run on tag [t] and buffer [src]. *)
Definition eventOn (t : ImageType) (src : bytes) (ev : event) : Prop :=
  match ev with
  | EvIsTypeSupported t' => t' = t
  | EvLoad c => call_format c = t /\ call_src c = src
  | EvLog _ => True
  end.

(** * Sample inputs

    Concrete collaborators and literal buffers on which the embedding is
    run below. *)

(** ** A concrete XML decoder

    It accepts exactly the buffers that open with the [svg] start tag,
    which is enough to run the sniffer on literal buffers. *)
Definition sampleXml (buf : bytes) : xmlDecoded :=
  if HasPrefix buf svg
  then {| decodeFailed := false; XMLName_Local := "svg" |}
  else {| decodeFailed := true; XMLName_Local := "" |}.

(** Literal buffers. *)
Definition zeros (k : nat) : bytes := repeat x00 k.
Definition bytesOf (s : string) : bytes := list_byte_of_string s.

Definition threeBytes : bytes := [xff; xd8; xff].
Definition webpNoRiff : bytes := zeros 8 ++ webpHeader.
Definition ftypAvif : bytes := zeros 4 ++ ftyp ++ avif.
Definition ftypIsom : bytes := zeros 4 ++ ftyp ++ bytesOf "isom".
Definition bmFtypIsom : bytes := bmpHeader ++ zeros 2 ++ ftyp ++ bytesOf "isom".
Definition brokenSvg : bytes := bytesOf "hello <svg wor".

(** ** A concrete world

    The registry knows JPEG, PNG and GIF; the bitmap codec accepts what
    starts with [BM]; a load primitive succeeds on a buffer that starts
    with the signature of its format and leaves a handle that remembers
    the call. *)
Definition sampleSupported (t : ImageType) : bool :=
  match t with
  | ImageTypeJPEG | ImageTypePNG | ImageTypeGIF => true
  | _ => false
  end.

Definition sampleNative (c : native_call) : Z * option native_call :=
  let src := call_src c in
  let ok := match call_format c with
            | ImageTypeJPEG => isJPEG src
            | ImageTypePNG => isPNG src
            | ImageTypeGIF => isGIF src
            | _ => false
            end in
  if ok then (0%Z, Some c) else ((-1)%Z, None).

Definition sampleWorld : World bytes native_call string :=
  {| xmlDecode := sampleXml;
     supportedImageTypes := sampleSupported;
     bmp_Decode := fun src =>
       if isBMP src then inl (skipn 2 src) else inr "bmp: invalid format"%string;
     png_Encode := fun img => (pngHeader ++ img, None);
     native := sampleNative;
     handleImageError := fun _ => Some "vips: load failed"%string;
     ErrUnsupportedImageFormat := "unsupported image format"%string;
     boolToInt := fun b => if b then 1%Z else 0%Z |}.

(** The mutator that sets the format override and nothing else. *)
Definition setImageType (t : ImageType) : ImportOption :=
  fun options => {| imageType := t; params := params options |}.

Definition validBmp : bytes := bmpHeader ++ zeros 12.
Definition sampleJpeg : bytes := jpeg ++ zeros 9.

(** * The rest of foreign.go *)

(** ** Names and extensions *)

(** A Go map literal over tags: its key/value pairs.  Reading a key that
    has no pair gives [None], the [ok = false] of the two-value read. *)
Fixpoint mapLookup (m : list (ImageType * string)) (k : ImageType)
  : option string :=
  match m with
  | [] => None
  | (k', v) :: m' => if ImageType_eqb k' k then Some v else mapLookup m' k
  end.

Definition imageTypeExtensionMap : list (ImageType * string) :=
  [ (ImageTypeGIF, ".gif");
    (ImageTypeJPEG, ".jpeg");
    (ImageTypeMagick, ".magick");
    (ImageTypePDF, ".pdf");
    (ImageTypePNG, ".png");
    (ImageTypeSVG, ".svg");
    (ImageTypeTIFF, ".tiff");
    (ImageTypeWEBP, ".webp");
    (ImageTypeHEIF, ".heic");
    (ImageTypeBMP, ".bmp") ]%string.

Definition ImageTypes : list (ImageType * string) :=
  [ (ImageTypeGIF, "gif");
    (ImageTypeJPEG, "jpeg");
    (ImageTypeMagick, "magick");
    (ImageTypePDF, "pdf");
    (ImageTypePNG, "png");
    (ImageTypeSVG, "svg");
    (ImageTypeTIFF, "tiff");
    (ImageTypeWEBP, "webp");
    (ImageTypeHEIF, "heif");
    (ImageTypeBMP, "bmp") ]%string.

Definition FileExt (i : ImageType) : string :=
  match mapLookup imageTypeExtensionMap i with
  | Some ext => ext
  | None => ""
  end.

(** ** Vocabulary for the runs of the loader *)

(** The tags the switch of [vipsLoadFromBuffer] has a case for. *)
Definition inSwitch (t : ImageType) : bool :=
  match t with
  | ImageTypeUnknown | ImageTypeBMP => false
  | _ => true
  end.

(** What the switch logs before it touches the buffer: the PDF case
    alone logs its options. *)
Definition logsBeforeLoad (t : ImageType) (options : ImportOptions)
  : list event :=
  match t with
  | ImageTypePDF =>
      let p := params options in
      [EvLog (LogPdfOptions (page p) (n p) (dpi p) (scale p))]
  | _ => []
  end.

(** Two parameter sets agree on what the case of [t] passes on. *)
Definition sameForwarded (t : ImageType) (p q : importParams) : Prop :=
  match t with
  | ImageTypeJPEG =>
      shrink p = shrink q /\ fail p = fail q /\ autorotate p = autorotate q
  | ImageTypePNG => True
  | ImageTypeWEBP => shrink p = shrink q
  | ImageTypeTIFF =>
      page p = page q /\ n p = n q /\ autorotate p = autorotate q /\
      subifd p = subifd q
  | ImageTypeGIF => page p = page q /\ n p = n q
  | ImageTypePDF =>
      page p = page q /\ n p = n q /\ dpi p = dpi q /\ scale p = scale q
  | ImageTypeSVG =>
      dpi p = dpi q /\ scale p = scale q /\ unlimited p = unlimited q
  | ImageTypeHEIF =>
      page p = page q /\ n p = n q /\ thumbnail p = thumbnail q
  | ImageTypeMagick =>
      page p = page q /\ n p = n q /\ density p = density q
  | ImageTypeUnknown | ImageTypeBMP => True
  end.

Definition isLoad (ev : event) : bool :=
  match ev with
  | EvLoad _ => true
  | _ => false
  end.

Definition isCheck (ev : event) : bool :=
  match ev with
  | EvIsTypeSupported _ => true
  | _ => false
  end.

(** A mutator that leaves the parameters alone, as one that only sets the
    format override does. *)
Definition keepsParams (m : ImportOption) : Prop :=
  forall options, params (m options) = params options.

(** ** Saving *)

(** One constructor per save primitive of foreign.h, with the image and
    the arguments that follow the two out-parameters. *)
Inductive save_call (VipsImage : Type) : Type :=
| save_png_buffer (img : option VipsImage) (strip comp inter : Z)
| save_webp_buffer (img : option VipsImage) (strip qual loss eff : Z)
| save_tiff_buffer (img : option VipsImage) (strip qual loss : Z)
| save_heif_buffer (img : option VipsImage) (qual loss : Z)
| save_jpeg_buffer (img : option VipsImage) (strip qual inter : Z).

Arguments save_png_buffer {VipsImage}.
Arguments save_webp_buffer {VipsImage}.
Arguments save_tiff_buffer {VipsImage}.
Arguments save_heif_buffer {VipsImage}.
Arguments save_jpeg_buffer {VipsImage}.

(** What a save function does to the world, in order.  [Ptr] is an
    [unsafe.Pointer]. *)
Inductive save_event (VipsImage Ptr : Type) : Type :=
| EvIncOpCounter (name : string)
| EvSave (c : save_call VipsImage)
| EvHandleSaveBufferError (ptr : Ptr)
| EvGoBytes (ptr : Ptr) (count : Z)
| EvFreePointer (ptr : Ptr).

Arguments EvIncOpCounter {VipsImage Ptr}.
Arguments EvSave {VipsImage Ptr}.
Arguments EvHandleSaveBufferError {VipsImage Ptr}.
Arguments EvGoBytes {VipsImage Ptr}.
Arguments EvFreePointer {VipsImage Ptr}.

(** What the save functions call that is not in foreign.go. *)
Record SaveWorld (VipsImage Ptr GoError : Type) : Type := mkSaveWorld {
  (** a save primitive: its status, and what it left in [ptr] and [cLen] *)
  nativeSave : save_call VipsImage -> Z * Ptr * Z;
  handleSaveBufferError : Ptr -> option GoError;
  (** [C.GoBytes]: the copy of [count] bytes found at [ptr] *)
  GoBytes : Ptr -> Z -> bytes;
  saveBoolToInt : bool -> Z
}.

Arguments nativeSave {VipsImage Ptr GoError} s c.
Arguments handleSaveBufferError {VipsImage Ptr GoError} s ptr.
Arguments GoBytes {VipsImage Ptr GoError} s ptr count.
Arguments saveBoolToInt {VipsImage Ptr GoError} s b.

Section Saver.

Variables VipsImage Ptr GoError : Type.
Variable SW : SaveWorld VipsImage Ptr GoError.

(** The run of a save function: its events and the pair it returns. *)
Let run : Type := list (save_event VipsImage Ptr) * (bytes * option GoError).

(** [toBuff]: copy [C.int(cLen)] bytes, then free the native buffer. *)
Definition toBuff (ptr : Ptr) (cLen : Z)
  : list (save_event VipsImage Ptr) * bytes :=
  ([EvGoBytes (VipsImage := VipsImage) ptr (C_int cLen); EvFreePointer ptr],
   GoBytes SW ptr (C_int cLen)).

(** The body the five save functions share once the arguments are
    converted: count, call, then either report or copy. *)
Definition saveWith (name : string) (c : save_call VipsImage) : run :=
  let '(err, ptr, cLen) := nativeSave SW c in
  if negb (err =? 0)%Z then
    ([EvIncOpCounter name; EvSave c; EvHandleSaveBufferError ptr],
     ([], handleSaveBufferError SW ptr))
  else
    let (tr, buf) := toBuff ptr cLen in
    ([EvIncOpCounter name; EvSave c] ++ tr, (buf, None)).

Definition vipsSavePNGToBuffer (img : option VipsImage) (stripMetadata : bool)
           (compression : Z) (interlaced : bool) : run :=
  let strip := C_int (saveBoolToInt SW stripMetadata) in
  let comp := C_int compression in
  let inter := C_int (saveBoolToInt SW interlaced) in
  saveWith "save_png_buffer" (save_png_buffer img strip comp inter).

Definition vipsSaveWebPToBuffer (img : option VipsImage) (stripMetadata : bool)
           (quality : Z) (lossless : bool) (effort : Z) : run :=
  let strip := C_int (saveBoolToInt SW stripMetadata) in
  let qual := C_int quality in
  let loss := C_int (saveBoolToInt SW lossless) in
  let eff := C_int effort in
  saveWith "save_webp_buffer" (save_webp_buffer img strip qual loss eff).

Definition vipsSaveTIFFToBuffer (img : option VipsImage) (stripMetadata : bool)
           (quality : Z) (lossless : bool) : run :=
  let strip := C_int (saveBoolToInt SW stripMetadata) in
  let qual := C_int quality in
  let loss := C_int (saveBoolToInt SW lossless) in
  saveWith "save_tiff_buffer" (save_tiff_buffer img strip qual loss).

Definition vipsSaveHEIFToBuffer (img : option VipsImage) (quality : Z)
           (lossless : bool) : run :=
  let qual := C_int quality in
  let loss := C_int (saveBoolToInt SW lossless) in
  saveWith "save_heif_buffer" (save_heif_buffer img qual loss).

Definition vipsSaveJPEGToBuffer (img : option VipsImage) (quality : Z)
           (stripMetadata interlaced : bool) : run :=
  let strip := C_int (saveBoolToInt SW stripMetadata) in
  let qual := C_int quality in
  let inter := C_int (saveBoolToInt SW interlaced) in
  saveWith "save_jpeg_buffer" (save_jpeg_buffer img strip qual inter).

End Saver.

Arguments toBuff {VipsImage Ptr GoError} SW ptr cLen.
Arguments saveWith {VipsImage Ptr GoError} SW name c.
Arguments vipsSavePNGToBuffer {VipsImage Ptr GoError} SW.
Arguments vipsSaveWebPToBuffer {VipsImage Ptr GoError} SW.
Arguments vipsSaveTIFFToBuffer {VipsImage Ptr GoError} SW.
Arguments vipsSaveHEIFToBuffer {VipsImage Ptr GoError} SW.
Arguments vipsSaveJPEGToBuffer {VipsImage Ptr GoError} SW.

(** The five save functions run on one image with one set of options. *)
Definition saveRuns {VipsImage Ptr GoError : Type}
           (SW : SaveWorld VipsImage Ptr GoError) (img : option VipsImage)
           (stripMetadata interlaced lossless : bool)
           (compression quality effort : Z)
  : list (list (save_event VipsImage Ptr) * (bytes * option GoError)) :=
  [ vipsSavePNGToBuffer SW img stripMetadata compression interlaced;
    vipsSaveWebPToBuffer SW img stripMetadata quality lossless effort;
    vipsSaveTIFFToBuffer SW img stripMetadata quality lossless;
    vipsSaveHEIFToBuffer SW img quality lossless;
    vipsSaveJPEGToBuffer SW img quality stripMetadata interlaced ].

(** ** A concrete world for saving

    Pointers are numbers, 0 being nil.  Saving a PNG succeeds and leaves
    the PNG signature at address 1; the other primitives fail. *)
Definition sampleSaveWorld : SaveWorld unit nat string :=
  {| nativeSave := fun c =>
       match c with
       | save_png_buffer _ _ _ _ => (0%Z, 1, 4%Z)
       | _ => ((-1)%Z, 0, 0%Z)
       end;
     handleSaveBufferError := fun _ => Some "vips: save failed"%string;
     GoBytes := fun ptr count =>
       match ptr with
       | 1 => firstn (Z.to_nat count) (pngHeader ++ zeros 4)
       | _ => []
       end;
     saveBoolToInt := fun b => if b then 1%Z else 0%Z |}.

(** More literal inputs. *)
Definition pdfWebp : bytes := pdf ++ bytesOf "-1.4" ++ webpHeader.
Definition sampleJpegTail : bytes := sampleJpeg ++ bytesOf "<svg/>".
Definition samplePng : bytes := pngHeader ++ zeros 8.

(** The mutator that sets the page and nothing else. *)
Definition setPage (k : Z) : ImportOption :=
  fun options =>
    let p := params options in
    {| imageType := imageType options;
       params := {| shrink := shrink p; fail := fail p;
                    autorotate := autorotate p; page := k; n := n p;
                    scale := scale p; subifd := subifd p; dpi := dpi p;
                    unlimited := unlimited p; thumbnail := thumbnail p;
                    density := density p |} |}.

(** * Properties of the sniffer *)

(** ** Equality of tags *)

Lemma ImageType_eqb_eq a b : ImageType_eqb a b = true <-> a = b.
Proof.
  unfold ImageType_eqb. destruct (ImageType_eq_dec a b); split; congruence.
Qed.

Lemma ImageType_eqb_neq a b : ImageType_eqb a b = false <-> a <> b.
Proof.
  unfold ImageType_eqb. destruct (ImageType_eq_dec a b); split; congruence.
Qed.


(** ** Slices and comparisons *)

Lemma Equal_eq (a b : bytes) : Equal a b = true <-> a = b.
Proof.
  revert b; induction a as [|x a IH]; intros [|y b]; simpl;
    try (split; (reflexivity || discriminate)).
  rewrite andb_true_iff, IH. split.
  - intros [Hxy ->]. now rewrite (Byte.byte_dec_bl _ _ Hxy).
  - intros [= -> ->]. split; [now apply Byte.byte_dec_lb | reflexivity].
Qed.

Lemma Equal_neq (a b : bytes) : Equal a b = false <-> a <> b.
Proof.
  rewrite <- Equal_eq. destruct (Equal a b); split; congruence.
Qed.

Lemma slice_in_bounds (buf : bytes) (lo hi : nat) :
  lo <= hi -> hi <= len buf ->
  slice buf lo hi = Some (firstn (hi - lo) (skipn lo buf)).
Proof.
  intros Hlo Hhi. unfold slice.
  apply Nat.leb_le in Hlo, Hhi. now rewrite Hlo, Hhi.
Qed.

Lemma slice_out_of_bounds (buf : bytes) (lo hi : nat) :
  len buf < hi -> slice buf lo hi = None.
Proof.
  intros H. unfold slice.
  apply Nat.leb_gt in H. rewrite H. now rewrite andb_false_r.
Qed.

Lemma slice_Some_bounds (buf s : bytes) (lo hi : nat) :
  slice buf lo hi = Some s ->
  lo <= hi /\ hi <= len buf /\ s = firstn (hi - lo) (skipn lo buf).
Proof.
  unfold slice. destruct (lo <=? hi) eqn:Hlo; simpl; [|discriminate].
  destruct (hi <=? len buf) eqn:Hhi; [|discriminate].
  intros [= <-]. apply Nat.leb_le in Hlo, Hhi. auto.
Qed.

Lemma sliceEqual_in_bounds (buf pat : bytes) (lo hi : nat) :
  lo <= hi -> hi <= len buf ->
  sliceEqual buf lo hi pat = Some (Equal (firstn (hi - lo) (skipn lo buf)) pat).
Proof.
  intros Hlo Hhi. unfold sliceEqual. now rewrite slice_in_bounds.
Qed.

Lemma sliceEqual_of_slice (buf s pat : bytes) (lo hi : nat) :
  slice buf lo hi = Some s -> sliceEqual buf lo hi pat = Some (Equal s pat).
Proof. intros H. unfold sliceEqual. now rewrite H. Qed.

(** ** The detectors behind the length gate *)

Lemma isWEBP_gate (buf : bytes) :
  12 <= len buf ->
  isWEBP buf = Some (Equal (firstn 4 (skipn 8 buf)) webpHeader).
Proof.
  intros H. unfold isWEBP. rewrite sliceEqual_in_bounds by lia. reflexivity.
Qed.

Lemma isHEIF_gate (buf : bytes) :
  12 <= len buf ->
  let brand := firstn 4 (skipn 8 buf) in
  isHEIF buf =
  Some (Equal (firstn 4 (skipn 4 buf)) ftyp &&
        (Equal brand heic || Equal brand avif ||
         Equal brand mif1 || Equal brand msf1)).
Proof.
  intros H brand. unfold isHEIF.
  rewrite !sliceEqual_in_bounds by lia.
  change (8 - 4) with 4. change (12 - 8) with 4. fold brand.
  unfold oand, oor, obind.
  destruct (Equal (firstn 4 (skipn 4 buf)) ftyp); [|reflexivity].
  destruct (Equal brand heic); [reflexivity|].
  destruct (Equal brand avif); [reflexivity|].
  destruct (Equal brand mif1); reflexivity.
Qed.

Lemma isSVG_total (xml : bytes -> xmlDecoded) (buf : bytes) :
  isSVG xml buf =
  Some (Contains (firstn (Nat.min 1024 (len buf)) buf) svg &&
        (negb (decodeFailed (xml buf)) &&
         String.eqb (XMLName_Local (xml buf)) "svg")).
Proof.
  unfold isSVG. rewrite slice_in_bounds by lia.
  rewrite Nat.sub_0_r. simpl skipn. unfold obind.
  destruct (Contains _ svg); reflexivity.
Qed.

Lemma DetermineImageType_below_gate (xml : bytes -> xmlDecoded) (buf : bytes) :
  len buf < 12 -> DetermineImageType xml buf = Some ImageTypeUnknown.
Proof.
  intros H. unfold DetermineImageType.
  apply Nat.ltb_lt in H. now rewrite H.
Qed.

(** Behind the gate the whole chain runs without a panic: this is
    [DetermineImageType] with every slice resolved. *)
Lemma DetermineImageType_gate (xml : bytes -> xmlDecoded) (buf : bytes) :
  12 <= len buf ->
  exists w h s,
    isWEBP buf = Some w /\ isHEIF buf = Some h /\ isSVG xml buf = Some s /\
    DetermineImageType xml buf =
    Some (if isJPEG buf then ImageTypeJPEG
          else if isPNG buf then ImageTypePNG
          else if isGIF buf then ImageTypeGIF
          else if isTIFF buf then ImageTypeTIFF
          else if w then ImageTypeWEBP
          else if h then ImageTypeHEIF
          else if s then ImageTypeSVG
          else if isPDF buf then ImageTypePDF
          else if isBMP buf then ImageTypeBMP
          else ImageTypeUnknown).
Proof.
  intros H.
  eexists _, _, _.
  split; [apply isWEBP_gate; exact H|].
  split; [apply isHEIF_gate; exact H|].
  split; [apply isSVG_total|].
  unfold DetermineImageType.
  apply Nat.ltb_ge in H as Hlt. rewrite Hlt.
  rewrite isWEBP_gate, isHEIF_gate, isSVG_total by exact H.
  unfold obind.
  repeat match goal with
         | |- context [if ?c then _ else _] => destruct c; try reflexivity
         end.
Qed.

Lemma DetermineImageType_returns (xml : bytes -> xmlDecoded) (buf : bytes) :
  exists t, DetermineImageType xml buf = Some t.
Proof.
  destruct (Nat.ltb_spec (len buf) 12) as [Hlt|Hge].
  - eexists. now apply DetermineImageType_below_gate.
  - destruct (DetermineImageType_gate xml buf Hge)
      as (w & h & s & _ & _ & _ & ->).
    eexists. reflexivity.
Qed.

Section SnifferClaims.

Variable xml : bytes -> xmlDecoded.

(** C8. A buffer shorter than 12 bytes is classified Unknown, whatever it
    holds. *)
Theorem DetermineImageType_short (buf : bytes) :
  len buf < 12 -> DetermineImageType xml buf = Some ImageTypeUnknown.
Proof.
  intros H. unfold DetermineImageType.
  destruct (Nat.ltb_spec (len buf) 12) as [_|Hge]; [reflexivity | lia].
Qed.

(** C9. [DetermineImageType] returns a tag for every buffer and never
    panics.  The reads at offsets 4-8 and 8-12 are out of bounds exactly
    when they are tried on a buffer shorter than 12 bytes ([isWEBP] panics
    there), and in bounds on every buffer the gate lets through; the slice
    of the SVG detector is in bounds on every buffer. *)
Theorem DetermineImageType_total (buf : bytes) :
  (exists t, DetermineImageType xml buf = Some t) /\
  (if len buf <? 12
   then isWEBP buf = None
   else (exists w, isWEBP buf = Some w) /\
        (exists s48 s812, slice buf 4 8 = Some s48 /\
                          slice buf 8 12 = Some s812) /\
        (exists h, isHEIF buf = Some h)) /\
  (exists sub, slice buf 0 (Nat.min 1024 (len buf)) = Some sub) /\
  (exists s, isSVG xml buf = Some s).
Proof.
  split; [|split; [|split]].
  - apply DetermineImageType_returns.
  - destruct (Nat.ltb_spec (len buf) 12) as [Hlt|Hge].
    + unfold isWEBP, sliceEqual. now rewrite slice_out_of_bounds.
    + split; [|split].
      * eexists. now apply isWEBP_gate.
      * eexists _, _. split; apply slice_in_bounds; lia.
      * eexists. now apply isHEIF_gate.
  - eexists. apply slice_in_bounds; lia.
  - eexists. apply isSVG_total.
Qed.

(** C7. On a buffer of at least 12 bytes that none of the JPEG, PNG, GIF
    and TIFF rules matches, the result is WEBP exactly when bytes 8-12 are
    [57 45 42 50]; bytes 0-8 are not looked at, so any 8 leading bytes
    followed by that signature give WEBP. *)
Theorem DetermineImageType_webp (buf : bytes) :
  12 <= len buf ->
  isJPEG buf = false -> isPNG buf = false ->
  isGIF buf = false -> isTIFF buf = false ->
  (DetermineImageType xml buf = Some ImageTypeWEBP <->
   slice buf 8 12 = Some webpHeader) /\
  (forall lead rest : bytes,
      len lead = 8 -> buf = lead ++ webpHeader ++ rest ->
      DetermineImageType xml buf = Some ImageTypeWEBP).
Proof.
  intros Hlen Hj Hp Hg Ht.
  destruct (DetermineImageType_gate xml buf Hlen)
    as (w & h & s & Hw & _ & _ & HD).
  rewrite Hj, Hp, Hg, Ht in HD.
  assert (Hw' : Equal (firstn 4 (skipn 8 buf)) webpHeader = w).
  { rewrite isWEBP_gate in Hw by exact Hlen. congruence. }
  clear Hw.
  assert (Hiff : DetermineImageType xml buf = Some ImageTypeWEBP <->
                 slice buf 8 12 = Some webpHeader).
  { rewrite slice_in_bounds by lia. change (12 - 8) with 4.
    rewrite HD. split.
    - intros Heq. f_equal. apply Equal_eq. rewrite Hw'.
      destruct w; [reflexivity|].
      destruct h; [discriminate|]. destruct s; [discriminate|].
      destruct (isPDF buf); [discriminate|].
      destruct (isBMP buf); discriminate.
    - intros Heq.
      assert (Hb : firstn 4 (skipn 8 buf) = webpHeader) by congruence.
      apply Equal_eq in Hb. rewrite Hb in Hw'. now subst w. }
  split; [exact Hiff|].
  intros lead rest Hlead ->. apply Hiff.
  rewrite slice_in_bounds by lia. f_equal.
  unfold len in Hlead.
  rewrite skipn_app, Hlead, Nat.sub_diag, skipn_all2 by lia.
  reflexivity.
Qed.

(** C5 (amended). On a buffer of at least 12 bytes with [ftyp] at offset
    4-8 that no earlier rule (JPEG, PNG, GIF, TIFF, WEBP) matches: a brand
    [heic], [avif], [mif1] or [msf1] at offset 8-12 gives HEIF; any other
    brand never gives HEIF, and the result is the one of the later rules:
    SVG, PDF or BMP when one of them matches, Unknown when none does. *)
Theorem DetermineImageType_ftyp (buf brand : bytes) :
  12 <= len buf ->
  slice buf 4 8 = Some ftyp ->
  slice buf 8 12 = Some brand ->
  isJPEG buf = false -> isPNG buf = false ->
  isGIF buf = false -> isTIFF buf = false ->
  isWEBP buf = Some false ->
  (In brand [heic; avif; mif1; msf1] ->
   DetermineImageType xml buf = Some ImageTypeHEIF) /\
  (~ In brand [heic; avif; mif1; msf1] ->
   DetermineImageType xml buf <> Some ImageTypeHEIF /\
   exists s, isSVG xml buf = Some s /\
     DetermineImageType xml buf =
     Some (if s then ImageTypeSVG
           else if isPDF buf then ImageTypePDF
           else if isBMP buf then ImageTypeBMP
           else ImageTypeUnknown)).
Proof.
  intros Hlen Hf Hb Hj Hp Hg Ht Hw.
  destruct (DetermineImageType_gate xml buf Hlen)
    as (w & h & s & Hw' & Hh' & Hs & HD).
  rewrite Hj, Hp, Hg, Ht in HD.
  assert (w = false) by congruence. subst w.
  pose proof (isHEIF_gate buf Hlen) as Hh. cbv zeta in Hh.
  assert (H48 : firstn 4 (skipn 4 buf) = ftyp).
  { apply slice_Some_bounds in Hf as (_ & _ & Hf). now rewrite Hf. }
  assert (H812 : firstn 4 (skipn 8 buf) = brand).
  { apply slice_Some_bounds in Hb as (_ & _ & Hb). now rewrite Hb. }
  rewrite H48, H812, (proj2 (Equal_eq ftyp ftyp) eq_refl) in Hh.
  rewrite andb_true_l in Hh.
  split.
  - intros Hin.
    assert (Hhe : Equal brand heic || Equal brand avif ||
                  Equal brand mif1 || Equal brand msf1 = true).
    { destruct Hin as [<-|[<-|[<-|[<-|[]]]]]; reflexivity. }
    rewrite Hhe in Hh. assert (h = true) by congruence. subst h.
    exact HD.
  - intros Hnot.
    assert (Hhe : Equal brand heic || Equal brand avif ||
                  Equal brand mif1 || Equal brand msf1 = false).
    { rewrite !orb_false_iff, !Equal_neq.
      repeat split; intros ->; apply Hnot; simpl; auto. }
    rewrite Hhe in Hh. assert (h = false) by congruence. subst h.
    split.
    + rewrite HD. destruct s; [discriminate|].
      destruct (isPDF buf); [discriminate|].
      destruct (isBMP buf); discriminate.
    + exists s. split; [exact Hs | exact HD].
Qed.

(** C6. When [<svg] occurs in the first [min 1024 (len buf)] bytes but the
    XML decoder fails or names another root, the SVG detector answers no:
    the result is never SVG, and a buffer that reached the SVG rule is
    classified by the PDF and BMP rules that follow it, or Unknown. *)
Theorem DetermineImageType_svg_unconfirmed (buf : bytes) :
  Contains (firstn (Nat.min 1024 (len buf)) buf) svg = true ->
  decodeFailed (xml buf) = true \/ XMLName_Local (xml buf) <> "svg"%string ->
  isSVG xml buf = Some false /\
  DetermineImageType xml buf <> Some ImageTypeSVG /\
  (12 <= len buf ->
   isJPEG buf = false -> isPNG buf = false ->
   isGIF buf = false -> isTIFF buf = false ->
   isWEBP buf = Some false -> isHEIF buf = Some false ->
   DetermineImageType xml buf =
   Some (if isPDF buf then ImageTypePDF
         else if isBMP buf then ImageTypeBMP
         else ImageTypeUnknown)).
Proof.
  intros Hc Hx.
  assert (HS : isSVG xml buf = Some false).
  { rewrite isSVG_total, Hc. simpl. f_equal.
    destruct Hx as [-> | Hne]; [reflexivity|].
    apply String.eqb_neq in Hne. rewrite Hne. apply andb_false_r. }
  split; [exact HS|]. split.
  - destruct (Nat.ltb_spec (len buf) 12) as [Hlt|Hge].
    + rewrite DetermineImageType_below_gate by exact Hlt. discriminate.
    + destruct (DetermineImageType_gate xml buf Hge)
        as (w & h & s & _ & _ & Hs & ->).
      assert (s = false) by congruence. subst s.
      repeat match goal with
             | |- context [if ?c then _ else _] => destruct c
             end; discriminate.
  - intros Hge Hj Hp Hg Ht Hw Hh.
    destruct (DetermineImageType_gate xml buf Hge)
      as (w & h & s & Hw' & Hh' & Hs & ->).
    assert (s = false) by congruence.
    assert (w = false) by congruence.
    assert (h = false) by congruence. subst.
    now rewrite Hj, Hp, Hg, Ht.
Qed.

End SnifferClaims.

(** ** The sniffer on literal buffers *)

Example sniff_jpeg :
  DetermineImageType sampleXml (jpeg ++ zeros 9) = Some ImageTypeJPEG.
Proof. reflexivity. Qed.

Example sniff_svg :
  DetermineImageType sampleXml (bytesOf "<svg xmlns='x'/>") = Some ImageTypeSVG.
Proof. reflexivity. Qed.

Example sniff_pdf :
  DetermineImageType sampleXml (pdf ++ zeros 8) = Some ImageTypePDF.
Proof. reflexivity. Qed.

Example isHEIF_short_panics : isHEIF (zeros 4 ++ ftyp) = None.
Proof. reflexivity. Qed.

Lemma DetermineImageType_short_witness :
  len threeBytes < 12 /\
  DetermineImageType sampleXml threeBytes = Some ImageTypeUnknown.
Proof.
  split; [vm_compute; lia|].
  apply (DetermineImageType_short sampleXml threeBytes). vm_compute; lia.
Defined.

Lemma DetermineImageType_webp_witness :
  12 <= len webpNoRiff /\
  isJPEG webpNoRiff = false /\ isPNG webpNoRiff = false /\
  isGIF webpNoRiff = false /\ isTIFF webpNoRiff = false /\
  (DetermineImageType sampleXml webpNoRiff = Some ImageTypeWEBP <->
   slice webpNoRiff 8 12 = Some webpHeader) /\
  DetermineImageType sampleXml webpNoRiff = Some ImageTypeWEBP.
Proof.
  assert (H12 : 12 <= len webpNoRiff) by (vm_compute; lia).
  pose proof (DetermineImageType_webp sampleXml webpNoRiff H12
                eq_refl eq_refl eq_refl eq_refl) as [Hiff Hshape].
  repeat split; try reflexivity; try exact H12; try apply Hiff.
Defined.

Lemma DetermineImageType_ftyp_witness :
  (12 <= len ftypAvif /\ slice ftypAvif 4 8 = Some ftyp /\
   slice ftypAvif 8 12 = Some avif /\
   In avif [heic; avif; mif1; msf1] /\
   DetermineImageType sampleXml ftypAvif = Some ImageTypeHEIF) /\
  (12 <= len ftypIsom /\ slice ftypIsom 4 8 = Some ftyp /\
   slice ftypIsom 8 12 = Some (bytesOf "isom") /\
   ~ In (bytesOf "isom") [heic; avif; mif1; msf1] /\
   DetermineImageType sampleXml ftypIsom <> Some ImageTypeHEIF).
Proof.
  assert (Ha : 12 <= len ftypAvif) by (vm_compute; lia).
  assert (Hi : 12 <= len ftypIsom) by (vm_compute; lia).
  assert (Hin : In avif [heic; avif; mif1; msf1]) by (simpl; auto).
  assert (Hnot : ~ In (bytesOf "isom") [heic; avif; mif1; msf1]).
  { simpl. intros [H|[H|[H|[H|[]]]]]; discriminate H. }
  split.
  - split; [exact Ha|]. split; [reflexivity|]. split; [reflexivity|].
    split; [exact Hin|].
    exact (proj1 (DetermineImageType_ftyp sampleXml ftypAvif avif Ha
                    eq_refl eq_refl eq_refl eq_refl eq_refl eq_refl eq_refl)
                 Hin).
  - split; [exact Hi|]. split; [reflexivity|]. split; [reflexivity|].
    split; [exact Hnot|].
    exact (proj1 (proj2 (DetermineImageType_ftyp sampleXml ftypIsom
                           (bytesOf "isom") Hi
                           eq_refl eq_refl eq_refl eq_refl eq_refl eq_refl
                           eq_refl)
                        Hnot)).
Defined.

(** C5 as stated fails: [BM 00 00 ftyp isom] has [ftyp] at offset 4-8, a
    brand outside the four, matches none of the earlier rules, and is
    classified BMP by the rule that follows, not Unknown. *)
Lemma DetermineImageType_ftyp_counterexample :
  12 <= len bmFtypIsom /\
  slice bmFtypIsom 4 8 = Some ftyp /\
  slice bmFtypIsom 8 12 = Some (bytesOf "isom") /\
  ~ In (bytesOf "isom") [heic; avif; mif1; msf1] /\
  isJPEG bmFtypIsom = false /\ isPNG bmFtypIsom = false /\
  isGIF bmFtypIsom = false /\ isTIFF bmFtypIsom = false /\
  isWEBP bmFtypIsom = Some false /\
  DetermineImageType sampleXml bmFtypIsom = Some ImageTypeBMP /\
  DetermineImageType sampleXml bmFtypIsom <> Some ImageTypeUnknown.
Proof.
  split; [vm_compute; lia|].
  split; [reflexivity|]. split; [reflexivity|].
  split; [simpl; intros [H|[H|[H|[H|[]]]]]; discriminate H|].
  repeat split; try reflexivity. discriminate.
Qed.

Lemma DetermineImageType_svg_unconfirmed_witness :
  Contains (firstn (Nat.min 1024 (len brokenSvg)) brokenSvg) svg = true /\
  decodeFailed (sampleXml brokenSvg) = true /\
  isSVG sampleXml brokenSvg = Some false /\
  DetermineImageType sampleXml brokenSvg <> Some ImageTypeSVG.
Proof.
  pose proof (DetermineImageType_svg_unconfirmed sampleXml brokenSvg
                eq_refl (or_introl eq_refl)) as (Hs & Hne & _).
  repeat split; try reflexivity; assumption.
Defined.

(** * Properties of the loader *)

(** ** Laws of the trace monad *)

Lemma bind_ret_l {E A B} (a : A) (k : A -> M E B) : bind (ret a) k = k a.
Proof. unfold bind, ret. destruct (k a). reflexivity. Qed.

Section LoaderFacts.

Variables Image VipsImage GoError : Type.
Variable W : World Image VipsImage GoError.

Lemma vipsLoadFromBuffer_sniffed (buf : bytes) (o : list ImportOption)
      (sniffed : ImageType) :
  DetermineImageType (xmlDecode W) buf = Some sniffed ->
  vipsLoadFromBuffer W buf o =
  match preprocess W (overrideImageType sniffed (resolveOptions sniffed o)) buf
  with
  | inr err => ret (None, ImageTypeUnknown, Some err)
  | inl (src', t') => checkAndLoad W t' src' (resolveOptions sniffed o)
  end.
Proof.
  intros H. unfold vipsLoadFromBuffer. rewrite H.
  unfold liftSlice. now rewrite bind_ret_l.
Qed.

Lemma overrideImageType_set (sniffed : ImageType) (options : ImportOptions) :
  imageType options <> ImageTypeUnknown ->
  overrideImageType sniffed options = imageType options.
Proof.
  intros H. unfold overrideImageType.
  apply ImageType_eqb_neq in H. now rewrite H.
Qed.

Lemma overrideImageType_unset (sniffed : ImageType) (options : ImportOptions) :
  imageType options = ImageTypeUnknown ->
  overrideImageType sniffed options = sniffed.
Proof. intros H. unfold overrideImageType. now rewrite H. Qed.

Lemma preprocess_other (t : ImageType) (src : bytes) :
  t <> ImageTypeBMP -> preprocess W t src = inl (src, t).
Proof.
  intros H. unfold preprocess.
  apply ImageType_eqb_neq in H. now rewrite H.
Qed.

Lemma preprocess_bmp (src : bytes) :
  preprocess W ImageTypeBMP src =
  match bmp_Decode W src with
  | inr e => inr e
  | inl i => match png_Encode W i with
             | (_, Some e) => inr e
             | (png, None) => inl (png, ImageTypePNG)
             end
  end.
Proof.
  unfold preprocess, bmpToPNG. simpl.
  destruct (bmp_Decode W src) as [i|e]; [|reflexivity].
  destruct (png_Encode W i) as [png [e|]]; reflexivity.
Qed.

(** The tag that leaves the preprocessor is never BMP. *)
Lemma preprocess_not_bmp (t t' : ImageType) (src src' : bytes) :
  preprocess W t src = inl (src', t') -> t' <> ImageTypeBMP.
Proof.
  unfold preprocess.
  destruct (ImageType_eqb t ImageTypeBMP) eqn:Ht.
  - destruct (bmpToPNG W src) as [s [e|]]; [discriminate|].
    intros [= _ <-]. discriminate.
  - intros [= _ <-]. now apply ImageType_eqb_neq.
Qed.

Lemma checkAndLoad_unsupported (t : ImageType) (src : bytes)
      (options : ImportOptions) :
  supportedImageTypes W t = false ->
  checkAndLoad W t src options =
  ([EvIsTypeSupported t; EvLog (LogFailedToUnderstand (len src))],
   Return (None, ImageTypeUnknown, Some (ErrUnsupportedImageFormat W))).
Proof.
  intros H. unfold checkAndLoad, IsTypeSupported, govipsLog, tell, ret, bind.
  simpl. now rewrite H.
Qed.

(** Every event [checkAndLoad] leaves is about its own tag and buffer. *)
Lemma checkAndLoad_trace (t : ImageType) (src : bytes)
      (options : ImportOptions) (ev : event) :
  In ev (trace (checkAndLoad W t src options)) -> eventOn t src ev.
Proof.
  unfold checkAndLoad, IsTypeSupported, govipsLog, callNative, tell, ret.
  unfold bind at 1 2. simpl.
  destruct (supportedImageTypes W t); simpl.
  - destruct t, src as [|b src]; simpl;
      repeat match goal with
             | |- context [native W ?c] =>
                 destruct (native W c) as [code out]; simpl
             | |- context [(?z =? 0)%Z] => destruct (z =? 0)%Z; simpl
             end;
      intros Hin;
      repeat (destruct Hin as [<-|Hin]; [simpl; auto|]);
      try contradiction.
  - intros [<-|[<-|[]]]; simpl; auto.
Qed.

(** What [checkAndLoad] can return: the error triple, or the handle a
    primitive stored together with the tag it was asked for. *)
Lemma checkAndLoad_return (t : ImageType) (src : bytes)
      (options : ImportOptions)
      (out : option VipsImage) (t' : ImageType) (err : option GoError) :
  result (checkAndLoad W t src options) = Return (out, t', err) ->
  (out = None /\ t' = ImageTypeUnknown) \/
  (err = None /\ t' = t /\ t <> ImageTypeUnknown /\ t <> ImageTypeBMP /\
   src <> [] /\
   exists c, In (EvLoad c) (trace (checkAndLoad W t src options)) /\
             native W c = (0%Z, out)).
Proof.
  unfold checkAndLoad, IsTypeSupported, govipsLog, callNative, tell, ret.
  unfold bind at 1 2. simpl.
  destruct (supportedImageTypes W t); simpl.
  - destruct t, src as [|b src]; simpl; try discriminate;
      match goal with
      | |- context [native W ?c] =>
          destruct (native W c) as [code out0] eqn:Hn; simpl;
          destruct (Z.eqb_spec code 0) as [->|Hne]; simpl;
          intros [= <- <- <-];
          [ right; repeat split; try discriminate;
            exists c; split; [simpl; auto | exact Hn]
          | left; auto ]
      end.
  - intros [= <- <- <-]. left; auto.
Qed.

(** ** The claims about [vipsLoadFromBuffer] *)


(** C10. Whenever the loader returns, under the contract of the load
    primitives: a return with an error carries a nil handle and the tag
    Unknown, and a return with a tag other than Unknown carries a handle
    and no error.  More precisely every return is either the triple of an
    error path, with nil handle and Unknown, or the triple of the success
    path, whose handle is the one a load primitive stored with status 0. *)
Theorem vipsLoadFromBuffer_return_shape
        (buf : bytes) (o : list ImportOption)
        (out : option VipsImage) (t : ImageType) (err : option GoError) :
  nativeContract W ->
  result (vipsLoadFromBuffer W buf o) = Return (out, t, err) ->
  (err <> None -> out = None /\ t = ImageTypeUnknown) /\
  (t <> ImageTypeUnknown -> out <> None /\ err = None) /\
  ((out = None /\ t = ImageTypeUnknown) \/
   (err = None /\ t <> ImageTypeUnknown /\
    exists c, In (EvLoad c) (trace (vipsLoadFromBuffer W buf o)) /\
              call_format c = t /\ native W c = (0%Z, out))).
Proof.
  intros Hnat Hret.
  assert (Hshape :
    (out = None /\ t = ImageTypeUnknown) \/
    (err = None /\ t <> ImageTypeUnknown /\
     exists c, In (EvLoad c) (trace (vipsLoadFromBuffer W buf o)) /\
               call_format c = t /\ native W c = (0%Z, out))).
  { destruct (DetermineImageType_returns (xmlDecode W) buf) as [sniffed Hd].
    rewrite (vipsLoadFromBuffer_sniffed buf o _ Hd) in Hret |- *.
    destruct (preprocess W _ buf) as [[src' t']|e].
    - destruct (checkAndLoad_return _ _ _ _ _ _ Hret)
        as [[-> ->] | (-> & -> & Hu & _ & _ & c & Hin & Hn)].
      + left; auto.
      + right. split; [reflexivity|]. split; [exact Hu|].
        exists c. split; [exact Hin|]. split; [|exact Hn].
        apply (checkAndLoad_trace _ _ _ _ Hin).
    - injection Hret as <- <- <-. left; auto. }
  split; [|split; [|exact Hshape]].
  - intros He. destruct Hshape as [H | (-> & _)]; [exact H | congruence].
  - intros Ht. destruct Hshape as [[_ ->] | (-> & _ & c & _ & _ & Hn)];
      [congruence|].
    split; [exact (Hnat c out Hn) | reflexivity].
Qed.

(** C2. When the tag left by the override step is BMP, the buffer goes
    through [bmp.Decode] and [png.Encode]: if either fails the loader
    returns that error with a nil handle and Unknown, having checked and
    loaded nothing; otherwise the rest of the loader runs on the PNG bytes
    with the tag PNG, so every capability check and load is about PNG and
    the encoded buffer, and a return that is not the error triple reports
    PNG. *)
Theorem vipsLoadFromBuffer_bmp (buf : bytes) (o : list ImportOption) :
  exists sniffed,
    DetermineImageType (xmlDecode W) buf = Some sniffed /\
    let options := resolveOptions sniffed o in
    (overrideImageType sniffed options = ImageTypeBMP ->
     match bmp_Decode W buf with
     | inr e =>
         vipsLoadFromBuffer W buf o =
         ([], Return (None, ImageTypeUnknown, Some e))
     | inl i =>
         match png_Encode W i with
         | (_, Some e) =>
             vipsLoadFromBuffer W buf o =
             ([], Return (None, ImageTypeUnknown, Some e))
         | (png, None) =>
             vipsLoadFromBuffer W buf o =
             checkAndLoad W ImageTypePNG png options /\
             (forall ev, In ev (trace (vipsLoadFromBuffer W buf o)) ->
                         eventOn ImageTypePNG png ev) /\
             (forall out t err,
                 result (vipsLoadFromBuffer W buf o) = Return (out, t, err) ->
                 (out = None /\ t = ImageTypeUnknown) \/
                 (t = ImageTypePNG /\ err = None))
         end
     end).
Proof.
  destruct (DetermineImageType_returns (xmlDecode W) buf) as [sniffed Hd].
  exists sniffed. split; [exact Hd|]. intros options Hb.
  rewrite (vipsLoadFromBuffer_sniffed buf o _ Hd).
  fold options. rewrite Hb, preprocess_bmp.
  destruct (bmp_Decode W buf) as [i|e]; [|reflexivity].
  destruct (png_Encode W i) as [png [e|]]; [reflexivity|].
  split; [reflexivity|]. split.
  - intros ev. apply checkAndLoad_trace.
  - intros out t err Hret.
    destruct (checkAndLoad_return _ _ _ _ _ _ Hret)
      as [H | (-> & -> & _)]; [left; exact H | right; auto].
Qed.


(** C4. With no mutator the options are the literal defaults, with
    [autorotate] set exactly when the sniffed tag is HEIF; no override is
    set, so the resolved tag is the sniffed one, and [autorotate] is true
    if and only if the resolved tag is HEIF, before as well as after the
    BMP preprocessing.  The rest of the loader runs with these options. *)
Theorem vipsLoadFromBuffer_defaults (buf : bytes) :
  exists sniffed,
    DetermineImageType (xmlDecode W) buf = Some sniffed /\
    let options := resolveOptions sniffed [] in
    options =
    {| imageType := ImageTypeUnknown;
       params := {| shrink := 1; fail := false;
                    autorotate := ImageType_eqb sniffed ImageTypeHEIF;
                    page := 0; n := 1; scale := 1%float; subifd := -1;
                    dpi := 72%float; unlimited := false; thumbnail := false;
                    density := "72x72" |} |} /\
    overrideImageType sniffed options = sniffed /\
    (autorotate (params options) = true <->
     overrideImageType sniffed options = ImageTypeHEIF) /\
    (forall src' t',
        preprocess W (overrideImageType sniffed options) buf = inl (src', t') ->
        (autorotate (params options) = true <-> t' = ImageTypeHEIF)) /\
    vipsLoadFromBuffer W buf [] =
    match preprocess W sniffed buf with
    | inr err => ret (None, ImageTypeUnknown, Some err)
    | inl (src', t') => checkAndLoad W t' src' options
    end.
Proof.
  destruct (DetermineImageType_returns (xmlDecode W) buf) as [sniffed Hd].
  exists sniffed. split; [exact Hd|]. intros options.
  assert (Hov : overrideImageType sniffed options = sniffed) by reflexivity.
  split; [reflexivity|]. split; [exact Hov|]. split; [|split].
  - rewrite Hov. simpl. apply ImageType_eqb_eq.
  - intros src' t'. rewrite Hov. simpl autorotate.
    rewrite ImageType_eqb_eq. unfold preprocess.
    destruct (ImageType_eq_dec sniffed ImageTypeBMP) as [->|Hne].
    + simpl. destruct (bmpToPNG W buf) as [png [e|]]; [discriminate|].
      intros [= _ <-]. split; discriminate.
    + apply ImageType_eqb_neq in Hne. rewrite Hne.
      intros [= _ <-]. reflexivity.
  - rewrite (vipsLoadFromBuffer_sniffed buf [] _ Hd). fold options.
    now rewrite Hov.
Qed.

End LoaderFacts.

(** ** The loader on literal inputs *)

Example load_jpeg_defaults :
  vipsLoadFromBuffer sampleWorld sampleJpeg [] =
  ([EvIsTypeSupported ImageTypeJPEG;
    EvLoad (load_jpeg_buffer sampleJpeg 1 0 0)],
   Return (Some (load_jpeg_buffer sampleJpeg 1 0 0), ImageTypeJPEG, None)).
Proof. reflexivity. Qed.

(** An empty buffer forced to a supported format passes the capability
    check and panics on [&src[0]]. *)
Example load_empty_forced_panics :
  vipsLoadFromBuffer sampleWorld [] [setImageType ImageTypeJPEG] =
  ([EvIsTypeSupported ImageTypeJPEG], PanicIndexOutOfRange).
Proof. reflexivity. Qed.

Example load_status_nonzero :
  vipsLoadFromBuffer sampleWorld sampleJpeg [setImageType ImageTypeGIF] =
  ([EvIsTypeSupported ImageTypeGIF; EvLoad (load_gif_buffer sampleJpeg 0 1)],
   Return (None, ImageTypeUnknown, Some "vips: load failed"%string)).
Proof. reflexivity. Qed.

Lemma sampleWorld_nativeContract : nativeContract sampleWorld.
Proof.
  intros c out. simpl. unfold sampleNative.
  match goal with
  | |- context [if ?b then _ else _] => destruct b
  end; intros [= <-]; discriminate.
Qed.



Lemma vipsLoadFromBuffer_return_shape_witness :
  nativeContract sampleWorld /\
  result (vipsLoadFromBuffer sampleWorld sampleJpeg []) =
  Return (Some (load_jpeg_buffer sampleJpeg 1 0 0), ImageTypeJPEG, None) /\
  (ImageTypeJPEG <> ImageTypeUnknown ->
   Some (load_jpeg_buffer sampleJpeg 1 0 0) <> None /\
   @None string = None).
Proof.
  split; [exact sampleWorld_nativeContract|]. split; [reflexivity|].
  exact (proj1 (proj2 (vipsLoadFromBuffer_return_shape
                         _ _ _ sampleWorld sampleJpeg [] _ _ _
                         sampleWorld_nativeContract eq_refl))).
Defined.

Lemma vipsLoadFromBuffer_bmp_witness :
  overrideImageType ImageTypeBMP (resolveOptions ImageTypeBMP [])
  = ImageTypeBMP /\
  exists sniffed,
    DetermineImageType sampleXml validBmp = Some sniffed /\
    (overrideImageType sniffed (resolveOptions sniffed []) = ImageTypeBMP ->
     match bmp_Decode sampleWorld validBmp with
     | inr e =>
         vipsLoadFromBuffer sampleWorld validBmp [] =
         ([], Return (None, ImageTypeUnknown, Some e))
     | inl i =>
         match png_Encode sampleWorld i with
         | (_, Some e) =>
             vipsLoadFromBuffer sampleWorld validBmp [] =
             ([], Return (None, ImageTypeUnknown, Some e))
         | (png, None) =>
             vipsLoadFromBuffer sampleWorld validBmp [] =
             checkAndLoad sampleWorld ImageTypePNG png
                          (resolveOptions sniffed []) /\
             (forall ev,
                 In ev (trace (vipsLoadFromBuffer sampleWorld validBmp [])) ->
                 eventOn ImageTypePNG png ev) /\
             (forall out t err,
                 result (vipsLoadFromBuffer sampleWorld validBmp [])
                 = Return (out, t, err) ->
                 (out = None /\ t = ImageTypeUnknown) \/
                 (t = ImageTypePNG /\ err = None))
         end
     end).
Proof.
  split; [reflexivity|].
  exact (vipsLoadFromBuffer_bmp _ _ _ sampleWorld validBmp []).
Defined.

Example load_valid_bmp_reports_png :
  vipsLoadFromBuffer sampleWorld validBmp [] =
  ([EvIsTypeSupported ImageTypePNG;
    EvLoad (load_png_buffer (pngHeader ++ zeros 12))],
   Return (Some (load_png_buffer (pngHeader ++ zeros 12)),
           ImageTypePNG, None)).
Proof. reflexivity. Qed.



Lemma vipsLoadFromBuffer_defaults_witness :
  exists sniffed,
    DetermineImageType sampleXml ftypAvif = Some sniffed /\
    autorotate (params (resolveOptions sniffed [])) = true /\
    overrideImageType sniffed (resolveOptions sniffed []) = ImageTypeHEIF.
Proof.
  destruct (vipsLoadFromBuffer_defaults _ _ _ sampleWorld ftypAvif)
    as (sniffed & Hd & _ & _ & Hiff & _).
  exists sniffed. split; [exact Hd|].
  assert (Hs : sniffed = ImageTypeHEIF).
  { cut (Some sniffed = Some ImageTypeHEIF); [congruence|].
    rewrite <- Hd. reflexivity. }
  split; [rewrite Hs; reflexivity | apply Hiff; rewrite Hs; reflexivity].
Defined.

(** * Further properties of the sniffer *)

(** ** What the comparisons of package bytes mean *)

Lemma HasPrefix_spec (s p : bytes) :
  HasPrefix s p = true <-> exists rest, s = p ++ rest.
Proof.
  revert s; induction p as [|x p IH]; intros s.
  - split; [intros _; now exists s | intros _; now destruct s].
  - destruct s as [|y s]; simpl.
    + split; [discriminate | intros [rest H]; discriminate H].
    + rewrite andb_true_iff, IH. split.
      * intros [Hxy [rest ->]]. apply Byte.byte_dec_bl in Hxy. subst y.
        now exists rest.
      * intros [rest [= -> ->]]. split; [now apply Byte.byte_dec_lb|].
        now exists rest.
Qed.

Lemma HasPrefix_firstn (k : nat) (s p : bytes) :
  len p <= k -> HasPrefix (firstn k s) p = HasPrefix s p.
Proof.
  revert k s; induction p as [|x p IH]; intros k s Hk.
  - now destruct (firstn k s), s.
  - unfold len in Hk. simpl in Hk. destruct k as [|k]; [lia|].
    destruct s as [|y s]; simpl; [reflexivity|].
    rewrite IH by (unfold len; lia). reflexivity.
Qed.

Lemma Contains_spec (b sub : bytes) :
  Contains b sub = true <-> exists pre post, b = pre ++ sub ++ post.
Proof.
  induction b as [|x b IH].
  - change (Contains [] sub) with (HasPrefix [] sub || false).
    rewrite orb_false_r, HasPrefix_spec. split.
    + intros [rest H]. now exists [], rest.
    + intros (pre & post & H). destruct pre as [|y pre]; [|discriminate H].
      now exists post.
  - change (Contains (x :: b) sub)
      with (HasPrefix (x :: b) sub || Contains b sub).
    rewrite orb_true_iff, HasPrefix_spec, IH. split.
    + intros [[rest H] | (pre & post & H)].
      * now exists [], rest.
      * exists (x :: pre), post. now rewrite H.
    + intros (pre & post & H). destruct pre as [|y pre].
      * left. now exists post.
      * right. injection H as _ H. now exists pre, post.
Qed.

Lemma firstn_min_len (k : nat) (buf : bytes) :
  firstn (Nat.min k (len buf)) buf = firstn k buf.
Proof.
  unfold len. destruct (Nat.le_gt_cases k (List.length buf)) as [H|H].
  - now rewrite Nat.min_l.
  - rewrite Nat.min_r by lia. rewrite !firstn_all2 by lia. reflexivity.
Qed.

(** [sub] occurs in the first [k] bytes of [buf] exactly when [buf] holds
    an occurrence that ends at offset [k] or before. *)
Lemma Contains_firstn (k : nat) (buf sub : bytes) :
  Contains (firstn k buf) sub = true <->
  exists pre post, buf = pre ++ sub ++ post /\ len pre + len sub <= k.
Proof.
  rewrite Contains_spec. unfold len. split.
  - intros (pre & post & H).
    exists pre, (post ++ skipn k buf). split.
    + rewrite <- (firstn_skipn k buf) at 1. rewrite H.
      now rewrite <- !app_assoc.
    + pose proof (firstn_le_length k buf) as Hle.
      rewrite H, !length_app in Hle. lia.
  - intros (pre & post & -> & Hk).
    exists pre, (firstn (k - List.length pre - List.length sub) post).
    rewrite firstn_app, (firstn_all2 pre) by lia.
    rewrite firstn_app, (firstn_all2 sub) by lia.
    reflexivity.
Qed.

(** ** The six signatures at offset 0 exclude one another *)

Lemma prefix_rules_exclusive (buf : bytes) :
  List.length (filter (fun b : bool => b)
                      [isJPEG buf; isPNG buf; isGIF buf; isTIFF buf;
                       isPDF buf; isBMP buf]) <= 1.
Proof.
  destruct buf as [|b rest]; [simpl; lia|].
  unfold isJPEG, isPNG, isGIF, isTIFF, isPDF, isBMP.
  destruct b; simpl; try lia;
    repeat match goal with
           | |- context [if ?c then _ else _] => destruct c; simpl
           end; lia.
Qed.

(** ** Which rule answers *)

(** Behind the gate every tag is returned by exactly one combination of
    detector answers. *)
Lemma DetermineImageType_exact (xml : bytes -> xmlDecoded) (buf : bytes)
      (t : ImageType) :
  12 <= len buf ->
  exists w h s,
    isWEBP buf = Some w /\ isHEIF buf = Some h /\ isSVG xml buf = Some s /\
    (DetermineImageType xml buf = Some t <->
     match t with
     | ImageTypeJPEG => isJPEG buf = true
     | ImageTypePNG => isPNG buf = true
     | ImageTypeGIF => isGIF buf = true
     | ImageTypeTIFF => isTIFF buf = true
     | ImageTypeWEBP =>
         isJPEG buf = false /\ isPNG buf = false /\ isGIF buf = false /\
         isTIFF buf = false /\ w = true
     | ImageTypeHEIF =>
         isJPEG buf = false /\ isPNG buf = false /\ isGIF buf = false /\
         isTIFF buf = false /\ w = false /\ h = true
     | ImageTypeSVG =>
         isJPEG buf = false /\ isPNG buf = false /\ isGIF buf = false /\
         isTIFF buf = false /\ w = false /\ h = false /\ s = true
     | ImageTypePDF => w = false /\ h = false /\ s = false /\ isPDF buf = true
     | ImageTypeBMP => w = false /\ h = false /\ s = false /\ isBMP buf = true
     | ImageTypeUnknown =>
         isJPEG buf = false /\ isPNG buf = false /\ isGIF buf = false /\
         isTIFF buf = false /\ w = false /\ h = false /\ s = false /\
         isPDF buf = false /\ isBMP buf = false
     | ImageTypeMagick => False
     end).
Proof.
  intros Hlen.
  destruct (DetermineImageType_gate xml buf Hlen)
    as (w & h & s & Hw & Hh & Hs & HD).
  exists w, h, s. split; [exact Hw|]. split; [exact Hh|]. split; [exact Hs|].
  rewrite HD. clear HD Hw Hh Hs.
  pose proof (prefix_rules_exclusive buf) as Hex.
  destruct (isJPEG buf), (isPNG buf), (isGIF buf), (isTIFF buf),
    (isPDF buf), (isBMP buf); simpl in Hex; try lia; clear Hex;
    destruct w, h, s, t; simpl; split; intros H;
      try discriminate H; try reflexivity; try contradiction;
      try (repeat split; reflexivity);
      try (decompose [and] H; discriminate).
Qed.

Lemma DetermineImageType_not_magick (xml : bytes -> xmlDecoded) (buf : bytes) :
  DetermineImageType xml buf <> Some ImageTypeMagick.
Proof.
  destruct (Nat.ltb_spec (len buf) 12) as [Hlt|Hge].
  - rewrite DetermineImageType_below_gate by exact Hlt. discriminate.
  - destruct (DetermineImageType_exact xml buf ImageTypeMagick Hge)
      as (w & h & s & _ & _ & _ & Hiff).
    intros H. now apply Hiff.
Qed.

Lemma gate_of_tag (xml : bytes -> xmlDecoded) (buf : bytes) (t : ImageType) :
  DetermineImageType xml buf = Some t -> t <> ImageTypeUnknown ->
  12 <= len buf.
Proof.
  intros H Ht. destruct (Nat.ltb_spec (len buf) 12) as [Hlt|Hge]; [|exact Hge].
  rewrite DetermineImageType_below_gate in H by exact Hlt. congruence.
Qed.

Lemma signature_tag (xml : bytes -> xmlDecoded) (buf : bytes)
      (t : ImageType) (P : Prop) :
  t <> ImageTypeUnknown ->
  (12 <= len buf -> (DetermineImageType xml buf = Some t <-> P)) ->
  (DetermineImageType xml buf = Some t <-> 12 <= len buf /\ P).
Proof.
  intros Ht Hiff. split.
  - intros H. pose proof (gate_of_tag xml buf t H Ht) as Hlen.
    split; [exact Hlen | now apply Hiff].
  - intros [Hlen HP]. now apply Hiff.
Qed.

Section SnifferExact.

Variable xml : bytes -> xmlDecoded.

(** X1. JPEG, PNG, GIF and TIFF are returned exactly for the buffers of
    at least 12 bytes that start with their signature, whatever follows:
    the four signatures exclude one another, so their order in the chain
    decides nothing. *)
Theorem DetermineImageType_signature_tags (buf : bytes) :
  (DetermineImageType xml buf = Some ImageTypeJPEG <->
   12 <= len buf /\ exists rest, buf = jpeg ++ rest) /\
  (DetermineImageType xml buf = Some ImageTypePNG <->
   12 <= len buf /\ exists rest, buf = pngHeader ++ rest) /\
  (DetermineImageType xml buf = Some ImageTypeGIF <->
   12 <= len buf /\ exists rest, buf = gifHeader ++ rest) /\
  (DetermineImageType xml buf = Some ImageTypeTIFF <->
   12 <= len buf /\
   exists rest, buf = tifII ++ rest \/ buf = tifMM ++ rest).
Proof.
  split; [|split; [|split]].
  - rewrite <- HasPrefix_spec. apply signature_tag; [discriminate|].
    intros Hlen.
    now destruct (DetermineImageType_exact xml buf ImageTypeJPEG Hlen)
      as (w & h & s & _ & _ & _ & H).
  - rewrite <- HasPrefix_spec. apply signature_tag; [discriminate|].
    intros Hlen.
    now destruct (DetermineImageType_exact xml buf ImageTypePNG Hlen)
      as (w & h & s & _ & _ & _ & H).
  - rewrite <- HasPrefix_spec. apply signature_tag; [discriminate|].
    intros Hlen.
    now destruct (DetermineImageType_exact xml buf ImageTypeGIF Hlen)
      as (w & h & s & _ & _ & _ & H).
  - assert (Htiff : (exists rest, buf = tifII ++ rest \/ buf = tifMM ++ rest)
                    <-> isTIFF buf = true).
    { unfold isTIFF. rewrite orb_true_iff, !HasPrefix_spec. split.
      - intros [rest [H|H]]; [left | right]; now exists rest.
      - intros [[rest H]|[rest H]]; exists rest; auto. }
    rewrite Htiff. apply signature_tag; [discriminate|].
    intros Hlen.
    now destruct (DetermineImageType_exact xml buf ImageTypeTIFF Hlen)
      as (w & h & s & _ & _ & _ & H).
Qed.

(** X2. HEIF is returned exactly for the buffers of at least 12 bytes
    that carry [ftyp] at offset 4-8 and one of the four brands at offset
    8-12 and do not start with a JPEG, PNG, GIF or TIFF signature. *)
Theorem DetermineImageType_heif_exact (buf : bytes) :
  DetermineImageType xml buf = Some ImageTypeHEIF <->
  12 <= len buf /\
  (isJPEG buf = false /\ isPNG buf = false /\
   isGIF buf = false /\ isTIFF buf = false) /\
  slice buf 4 8 = Some ftyp /\
  exists brand, slice buf 8 12 = Some brand /\
                In brand [heic; avif; mif1; msf1].
Proof.
  apply signature_tag; [discriminate|]. intros Hlen.
  destruct (DetermineImageType_exact xml buf ImageTypeHEIF Hlen)
    as (w & h & s & Hw & Hh & _ & Hiff).
  rewrite Hiff. clear Hiff.
  rewrite isWEBP_gate in Hw by exact Hlen.
  rewrite isHEIF_gate in Hh by exact Hlen. cbv zeta in Hh.
  rewrite !slice_in_bounds by lia.
  change (8 - 4) with 4. change (12 - 8) with 4.
  set (magic := firstn 4 (skipn 4 buf)) in *.
  set (brand := firstn 4 (skipn 8 buf)) in *.
  assert (Hw' : w = Equal brand webpHeader) by congruence.
  assert (Hh' : h = Equal magic ftyp &&
                    (Equal brand heic || Equal brand avif ||
                     Equal brand mif1 || Equal brand msf1)) by congruence.
  clear Hw Hh. subst w h. split.
  - intros (Hj & Hp & Hg & Ht & _ & Hh).
    apply andb_true_iff in Hh as [Hm Hb].
    apply Equal_eq in Hm.
    split; [auto|]. split; [now rewrite Hm|].
    exists brand. split; [reflexivity|].
    rewrite !orb_true_iff, !Equal_eq in Hb.
    destruct Hb as [[[H|H]|H]|H]; symmetry in H; simpl; auto 6.
  - intros ((Hj & Hp & Hg & Ht) & Hm & brand' & Hb & Hin).
    assert (Hm' : magic = ftyp) by congruence.
    assert (Hb' : brand = brand') by congruence.
    rewrite Hm', Hb'.
    repeat (split; [assumption|]).
    destruct Hin as [<-|[<-|[<-|[<-|[]]]]]; split; reflexivity.
Qed.

(** X3. PDF and BMP are returned exactly for the buffers of at least 12
    bytes that start with their signature and that the WEBP, HEIF and
    SVG rules, which come first, all reject: a buffer that opens with
    [%PDF] or [BM] and has [WEBP] at offset 8-12 is classified WEBP. *)
Theorem DetermineImageType_pdf_bmp_exact (buf : bytes) :
  (DetermineImageType xml buf = Some ImageTypePDF <->
   12 <= len buf /\ (exists rest, buf = pdf ++ rest) /\
   isWEBP buf = Some false /\ isHEIF buf = Some false /\
   isSVG xml buf = Some false) /\
  (DetermineImageType xml buf = Some ImageTypeBMP <->
   12 <= len buf /\ (exists rest, buf = bmpHeader ++ rest) /\
   isWEBP buf = Some false /\ isHEIF buf = Some false /\
   isSVG xml buf = Some false) /\
  (12 <= len buf ->
   (exists rest, buf = pdf ++ rest) \/ (exists rest, buf = bmpHeader ++ rest) ->
   slice buf 8 12 = Some webpHeader ->
   DetermineImageType xml buf = Some ImageTypeWEBP).
Proof.
  split; [|split].
  - rewrite <- HasPrefix_spec. apply signature_tag; [discriminate|].
    intros Hlen.
    destruct (DetermineImageType_exact xml buf ImageTypePDF Hlen)
      as (w & h & s & Hw & Hh & Hs & Hiff).
    rewrite Hiff, Hw, Hh, Hs. fold (isPDF buf).
    split; [intros (-> & -> & -> & H) | intros (H & Ew & Eh & Es)].
    + auto.
    + repeat split; congruence.
  - rewrite <- HasPrefix_spec. apply signature_tag; [discriminate|].
    intros Hlen.
    destruct (DetermineImageType_exact xml buf ImageTypeBMP Hlen)
      as (w & h & s & Hw & Hh & Hs & Hiff).
    rewrite Hiff, Hw, Hh, Hs. fold (isBMP buf).
    split; [intros (-> & -> & -> & H) | intros (H & Ew & Eh & Es)].
    + auto.
    + repeat split; congruence.
  - intros Hlen Hsig H8.
    destruct (DetermineImageType_exact xml buf ImageTypeWEBP Hlen)
      as (w & h & s & Hw & _ & _ & Hiff).
    apply Hiff. clear Hiff.
    assert (Hd : isPDF buf = true \/ isBMP buf = true).
    { destruct Hsig as [H|H]; [left | right]; now apply HasPrefix_spec. }
    pose proof (prefix_rules_exclusive buf) as Hex.
    assert (Hw' : w = true).
    { unfold isWEBP in Hw. rewrite (sliceEqual_of_slice _ _ webpHeader _ _ H8) in Hw.
      injection Hw as <-. reflexivity. }
    destruct (isJPEG buf), (isPNG buf), (isGIF buf), (isTIFF buf),
      (isPDF buf), (isBMP buf); simpl in Hex; try lia;
      destruct Hd; try discriminate; auto.
Qed.

(** X4. SVG is returned exactly when no earlier rule answers, an
    occurrence of [<svg] starts at offset 1020 or before, and the XML
    decoder succeeds with root [svg]: an SVG whose root tag starts
    beyond offset 1020 is not recognised. *)
Theorem DetermineImageType_svg_exact (buf : bytes) :
  DetermineImageType xml buf = Some ImageTypeSVG <->
  12 <= len buf /\
  (isJPEG buf = false /\ isPNG buf = false /\
   isGIF buf = false /\ isTIFF buf = false /\
   isWEBP buf = Some false /\ isHEIF buf = Some false) /\
  (exists pre post, buf = pre ++ svg ++ post /\ len pre <= 1020) /\
  decodeFailed (xml buf) = false /\
  XMLName_Local (xml buf) = "svg"%string.
Proof.
  apply signature_tag; [discriminate|]. intros Hlen.
  destruct (DetermineImageType_exact xml buf ImageTypeSVG Hlen)
    as (w & h & s & Hw & Hh & Hs & Hiff).
  rewrite Hiff, Hw, Hh. clear Hiff.
  rewrite isSVG_total, firstn_min_len in Hs.
  assert (Hwin : Contains (firstn 1024 buf) svg = true <->
                 exists pre post, buf = pre ++ svg ++ post /\ len pre <= 1020).
  { rewrite Contains_firstn. split; intros (pre & post & H & Hk);
      exists pre, post; (split; [exact H|]);
      change (len svg) with 4 in *; lia. }
  rewrite <- Hwin.
  assert (Hs' : s = Contains (firstn 1024 buf) svg &&
                    (negb (decodeFailed (xml buf)) &&
                     (XMLName_Local (xml buf) =? "svg")%string))
    by congruence.
  clear Hs. subst s. split.
  - intros (Hj & Hp & Hg & Ht & -> & -> & Hs).
    apply andb_true_iff in Hs as [Hc Hx].
    apply andb_true_iff in Hx as [Hf Hr].
    apply negb_true_iff in Hf. apply String.eqb_eq in Hr.
    repeat split; assumption.
  - intros ((Hj & Hp & Hg & Ht & Ew & Eh) & Hc & Hf & Hr).
    repeat (split; [congruence|]).
    rewrite Hc, Hf, Hr. reflexivity.
Qed.

(** X5. Unknown is returned exactly for the buffers shorter than 12
    bytes and for those on which every one of the nine rules answers
    no. *)
Theorem DetermineImageType_unknown_exact (buf : bytes) :
  DetermineImageType xml buf = Some ImageTypeUnknown <->
  len buf < 12 \/
  (isJPEG buf = false /\ isPNG buf = false /\ isGIF buf = false /\
   isTIFF buf = false /\ isWEBP buf = Some false /\
   isHEIF buf = Some false /\ isSVG xml buf = Some false /\
   isPDF buf = false /\ isBMP buf = false).
Proof.
  destruct (Nat.ltb_spec (len buf) 12) as [Hlt|Hge].
  - rewrite DetermineImageType_below_gate by exact Hlt.
    split; [now left | reflexivity].
  - destruct (DetermineImageType_exact xml buf ImageTypeUnknown Hge)
      as (w & h & s & Hw & Hh & Hs & Hiff).
    rewrite Hiff, Hw, Hh, Hs. split.
    + intros (Hj & Hp & Hg & Ht & -> & -> & -> & Hd & Hb).
      right. repeat split; assumption.
    + intros [Hlt | (Hj & Hp & Hg & Ht & Ew & Eh & Es & Hd & Hb)]; [lia|].
      repeat split; congruence.
Qed.

(** X6. A tag other than SVG, PDF, BMP and Unknown is decided by the
    first 12 bytes alone: another buffer of at least 12 bytes with the
    same first 12 bytes gets the same tag, whatever follows and whatever
    the XML decoder says. *)
Theorem DetermineImageType_first12
        (xml' : bytes -> xmlDecoded) (buf buf' : bytes) (t : ImageType) :
  12 <= len buf -> 12 <= len buf' ->
  firstn 12 buf = firstn 12 buf' ->
  In t [ImageTypeJPEG; ImageTypePNG; ImageTypeGIF; ImageTypeTIFF;
        ImageTypeWEBP; ImageTypeHEIF] ->
  DetermineImageType xml buf = Some t ->
  DetermineImageType xml' buf' = Some t.
Proof.
  intros Hlen Hlen' H12 Hin HD.
  assert (Hpre : forall p, len p <= 12 -> HasPrefix buf p = HasPrefix buf' p).
  { intros p Hp. rewrite <- (HasPrefix_firstn 12 buf p Hp).
    rewrite <- (HasPrefix_firstn 12 buf' p Hp). now rewrite H12. }
  assert (Hmid : forall lo k, lo + k <= 12 ->
                 firstn k (skipn lo buf) = firstn k (skipn lo buf')).
  { intros lo k Hk.
    assert (Hcut : forall b : bytes,
               firstn k (skipn lo b) = firstn k (skipn lo (firstn 12 b))).
    { intros b. replace 12 with (lo + (12 - lo)) by lia.
      rewrite <- firstn_skipn_comm, firstn_firstn. f_equal. lia. }
    rewrite (Hcut buf), (Hcut buf'), H12. reflexivity. }
  destruct (DetermineImageType_exact xml buf t Hlen)
    as (w & h & s & Hw & Hh & _ & Hiff).
  destruct (DetermineImageType_exact xml' buf' t Hlen')
    as (w' & h' & s' & Hw' & Hh' & _ & Hiff').
  rewrite isWEBP_gate in Hw, Hw' by assumption.
  rewrite isHEIF_gate in Hh, Hh' by assumption. cbv zeta in Hh, Hh'.
  rewrite (Hmid 8 4) in Hw, Hh by lia. rewrite (Hmid 4 4) in Hh by lia.
  assert (w = w') by congruence. assert (h = h') by congruence. subst w' h'.
  apply Hiff'. apply Hiff in HD. clear Hiff Hiff' Hw Hw' Hh Hh'.
  unfold isJPEG, isPNG, isGIF, isTIFF in *.
  rewrite <- !Hpre by (vm_compute; lia).
  destruct Hin as [<-|[<-|[<-|[<-|[<-|[<-|[]]]]]]]; exact HD.
Qed.

End SnifferExact.

(** * Names and extensions *)

(** X7. [FileExt] gives the empty string for Unknown, which has no entry
    in the map, and for no other tag; distinct tags have distinct
    extensions; and every extension is a dot followed by the name of the
    tag in [ImageTypes], except for HEIF, whose extension is [.heic] and
    whose name is [heif]. *)
Theorem FileExt_table :
  (forall i, FileExt i = ""%string <-> i = ImageTypeUnknown) /\
  (forall a b, FileExt a = FileExt b -> a = b) /\
  (forall i, i <> ImageTypeUnknown ->
             exists name, mapLookup ImageTypes i = Some name /\
                          (i <> ImageTypeHEIF ->
                           FileExt i = ("." ++ name)%string)) /\
  mapLookup ImageTypes ImageTypeUnknown = None /\
  FileExt ImageTypeHEIF = ".heic"%string.
Proof.
  split; [|split; [|split; [|split]]].
  - intros i. destruct i; split; intros H;
      try reflexivity; discriminate H.
  - intros a b. destruct a, b; intros H;
      try reflexivity; discriminate H.
  - intros i Hi. destruct i; try congruence;
      (eexists; split; [reflexivity | intros _; reflexivity])
      || (eexists; split; [reflexivity | intros H; congruence]).
  - reflexivity.
  - reflexivity.
Qed.

(** * Further properties of the loader *)

Section LoaderRuns.

Variables Image VipsImage GoError : Type.
Variable W : World Image VipsImage GoError.

(** The four ways [checkAndLoad] can run. *)
Lemma checkAndLoad_cases (t : ImageType) (src : bytes)
      (options : ImportOptions) :
  (supportedImageTypes W t = false /\
   checkAndLoad W t src options =
   ([EvIsTypeSupported t; EvLog (LogFailedToUnderstand (len src))],
    Return (None, ImageTypeUnknown, Some (ErrUnsupportedImageFormat W)))) \/
  (supportedImageTypes W t = true /\ inSwitch t = false /\
   checkAndLoad W t src options =
   ([EvIsTypeSupported t], PanicValue (ErrUnsupportedImageFormat W))) \/
  (supportedImageTypes W t = true /\ inSwitch t = true /\ src = [] /\
   checkAndLoad W t src options =
   (EvIsTypeSupported t :: logsBeforeLoad t options, PanicIndexOutOfRange)) \/
  (supportedImageTypes W t = true /\ inSwitch t = true /\ src <> [] /\
   exists c,
     call_format c = t /\ call_src c = src /\
     checkAndLoad W t src options =
     (EvIsTypeSupported t :: logsBeforeLoad t options ++ [EvLoad c],
      Return (if negb (fst (native W c) =? 0)%Z
              then (None, ImageTypeUnknown,
                    handleImageError W (snd (native W c)))
              else (snd (native W c), t, None)))).
Proof.
  destruct (supportedImageTypes W t) eqn:Hs.
  - right.
    unfold checkAndLoad, IsTypeSupported, govipsLog, callNative, tell, ret.
    unfold bind at 1 2. simpl. rewrite Hs. simpl.
    destruct t; simpl;
      try (left; repeat split; reflexivity);
      right; (destruct src as [|b src]; simpl;
        [ left; repeat split; reflexivity
        | right; split; [reflexivity|]; split; [reflexivity|];
          split; [discriminate|];
          match goal with
          | |- context [native W ?c] =>
              exists c; split; [reflexivity|]; split; [reflexivity|];
              destruct (native W c) as [code out]; simpl;
              destruct (code =? 0)%Z; reflexivity
          end ]).
  - left. split; [reflexivity|].
    apply (checkAndLoad_unsupported _ _ _ W). exact Hs.
Qed.

(** The two ways [vipsLoadFromBuffer] can run. *)
Lemma vipsLoadFromBuffer_cases (buf : bytes) (o : list ImportOption) :
  exists sniffed,
    DetermineImageType (xmlDecode W) buf = Some sniffed /\
    let options := resolveOptions sniffed o in
    let t := overrideImageType sniffed options in
    (exists e, preprocess W t buf = inr e /\
               vipsLoadFromBuffer W buf o =
               ([], Return (None, ImageTypeUnknown, Some e))) \/
    (exists src' t', preprocess W t buf = inl (src', t') /\
                     t' <> ImageTypeBMP /\
                     vipsLoadFromBuffer W buf o =
                     checkAndLoad W t' src' options).
Proof.
  destruct (DetermineImageType_returns (xmlDecode W) buf) as [sniffed Hd].
  exists sniffed. split; [exact Hd|]. intros options t.
  rewrite (vipsLoadFromBuffer_sniffed _ _ _ W buf o _ Hd).
  fold options. fold t.
  destruct (preprocess W t buf) as [[src' t']|e] eqn:Hp.
  - right. exists src', t'. split; [reflexivity|]. split; [|reflexivity].
    exact (preprocess_not_bmp _ _ _ W _ _ _ _ Hp).
  - left. exists e. split; reflexivity.
Qed.

Lemma logsBeforeLoad_no_load_no_check (t : ImageType)
      (options : ImportOptions) :
  filter isLoad (logsBeforeLoad t options) = [] /\
  filter isCheck (logsBeforeLoad t options) = [] /\
  forall ev, In ev (logsBeforeLoad t options) -> exists m, ev = EvLog m.
Proof.
  destruct t; simpl; (split; [reflexivity|]); (split; [reflexivity|]);
    intros ev Hin; try contradiction.
  destruct Hin as [<-|[]]. eexists. reflexivity.
Qed.

Lemma preprocess_inv (t t' : ImageType) (src src' : bytes) :
  preprocess W t src = inl (src', t') ->
  (t <> ImageTypeBMP /\ src' = src /\ t' = t) \/
  (t = ImageTypeBMP /\ t' = ImageTypePNG /\
   exists i, bmp_Decode W src = inl i /\ png_Encode W i = (src', None)).
Proof.
  destruct (ImageType_eq_dec t ImageTypeBMP) as [->|Hne].
  - rewrite preprocess_bmp.
    destruct (bmp_Decode W src) as [i|e]; [|discriminate].
    destruct (png_Encode W i) as [png [e|]] eqn:Hp; [discriminate|].
    intros [= <- <-]. right. split; [reflexivity|]. split; [reflexivity|].
    now exists i.
  - rewrite (preprocess_other _ _ _ W t src Hne).
    intros [= <- <-]. left. auto.
Qed.

Lemma inSwitch_false (t : ImageType) :
  inSwitch t = false -> t = ImageTypeUnknown \/ t = ImageTypeBMP.
Proof. destruct t; simpl; intros H; try discriminate H; auto. Qed.

Lemma applyOptions_keepsParams (o : list ImportOption)
      (options : ImportOptions) :
  Forall keepsParams o -> params (applyOptions o options) = params options.
Proof.
  intros Ho. revert options.
  induction Ho as [|m o Hm _ IH]; intros options; [reflexivity|].
  unfold applyOptions in *. simpl. now rewrite IH, Hm.
Qed.

Lemma checkAndLoad_forwarded (t : ImageType) (src : bytes)
      (o1 o2 : ImportOptions) :
  sameForwarded t (params o1) (params o2) ->
  checkAndLoad W t src o1 = checkAndLoad W t src o2.
Proof.
  intros H. unfold checkAndLoad, loadByType.
  destruct t; simpl in H; try reflexivity;
    repeat match goal with
           | Hc : _ /\ _ |- _ => destruct Hc
           end;
    repeat match goal with
           | He : _ = _ |- _ => rewrite He; clear He
           end;
    reflexivity.
Qed.

(** The arguments [checkAndLoad] gives the JPEG and TIFF primitives. *)
Lemma checkAndLoad_autorotate (t : ImageType) (src : bytes)
      (options : ImportOptions) (c : native_call) :
  In (EvLoad c) (trace (checkAndLoad W t src options)) ->
  match c with
  | load_jpeg_buffer _ sh f a =>
      sh = C_int (shrink (params options)) /\
      f = C_int (boolToInt W (fail (params options))) /\
      a = C_int (boolToInt W (autorotate (params options)))
  | load_tiff_buffer _ _ _ a _ =>
      a = C_int (boolToInt W (autorotate (params options)))
  | _ => True
  end.
Proof.
  unfold checkAndLoad, IsTypeSupported, govipsLog, callNative, tell, ret.
  unfold bind at 1 2. simpl.
  destruct (supportedImageTypes W t); simpl.
  - destruct t, src as [|b src]; simpl;
      repeat match goal with
             | |- context [native W ?c] =>
                 destruct (native W c) as [code out]; simpl
             | |- context [(?z =? 0)%Z] => destruct (z =? 0)%Z; simpl
             end;
      intros Hin;
      repeat (destruct Hin as [Hin|Hin];
              [try discriminate Hin; injection Hin as <-; simpl; auto|]);
      try contradiction.
  - intros [H|[H|[]]]; discriminate H.
Qed.

(** X8. [vipsLoadFromBuffer] makes at most one capability check and at
    most one foreign load call.  A load call is always the last event of
    the run and the capability check of its own format the first, with
    only log messages between them; the format is one the table marks
    supported and the switch has a case for, and the buffer handed over
    is not empty. *)
Theorem vipsLoadFromBuffer_loads_only_supported
        (buf : bytes) (o : list ImportOption) :
  List.length (filter isLoad (trace (vipsLoadFromBuffer W buf o))) <= 1 /\
  List.length (filter isCheck (trace (vipsLoadFromBuffer W buf o))) <= 1 /\
  forall c,
    In (EvLoad c) (trace (vipsLoadFromBuffer W buf o)) ->
    supportedImageTypes W (call_format c) = true /\
    inSwitch (call_format c) = true /\
    call_src c <> [] /\
    exists logs,
      trace (vipsLoadFromBuffer W buf o) =
      EvIsTypeSupported (call_format c) :: logs ++ [EvLoad c] /\
      forall ev, In ev logs -> exists m, ev = EvLog m.
Proof.
  destruct (vipsLoadFromBuffer_cases buf o)
    as (sniffed & _ & [(e & _ & ->) | (src' & t' & _ & _ & ->)]).
  { simpl. split; [lia|]. split; [lia|]. intros c []. }
  set (options := resolveOptions sniffed o).
  destruct (logsBeforeLoad_no_load_no_check t' options) as (Hl & Hc & Hlog).
  destruct (checkAndLoad_cases t' src' options)
    as [(Hs & ->) | [(Hs & Hsw & ->) | [(Hs & Hsw & Hsrc & ->)
       | (Hs & Hsw & Hsrc & c0 & Hf & Hcs & ->)]]]; unfold trace; simpl fst.
  - simpl. split; [lia|]. split; [lia|].
    intros c [H|[H|[]]]; discriminate H.
  - simpl. split; [lia|]. split; [lia|].
    intros c [H|[]]; discriminate H.
  - simpl. rewrite Hl, Hc. simpl. split; [lia|]. split; [lia|].
    intros c [H|H]; [discriminate H|].
    destruct (Hlog _ H) as [m Hm]. discriminate Hm.
  - simpl. rewrite !filter_app, Hl, Hc. simpl. split; [lia|]. split; [lia|].
    intros c [H|H]; [discriminate H|].
    apply in_app_or in H as [H|[H|[]]].
    + destruct (Hlog _ H) as [m Hm]. discriminate Hm.
    + injection H as <-. rewrite Hf, Hcs.
      split; [exact Hs|]. split; [exact Hsw|]. split; [exact Hsrc|].
      exists (logsBeforeLoad t' options). split; [reflexivity | exact Hlog].
Qed.

(** X9. When [vipsLoadFromBuffer] panics.  It never panics on a slice
    bound.  It panics with [ErrUnsupportedImageFormat] only when the tag
    that reaches the switch is Unknown and the table marks Unknown
    supported.  It panics on index 0 only when the buffer that reaches
    the switch is empty: the caller's, or the PNG the encoder returned.
    So with a table that does not support Unknown, a non-empty buffer
    and an encoder that never returns an empty PNG, it always returns. *)
Theorem vipsLoadFromBuffer_panics (buf : bytes) (o : list ImportOption) :
  match result (vipsLoadFromBuffer W buf o) with
  | Return _ => True
  | PanicSliceBounds => False
  | PanicValue e =>
      e = ErrUnsupportedImageFormat W /\
      supportedImageTypes W ImageTypeUnknown = true /\
      exists sniffed,
        DetermineImageType (xmlDecode W) buf = Some sniffed /\
        overrideImageType sniffed (resolveOptions sniffed o)
        = ImageTypeUnknown
  | PanicIndexOutOfRange =>
      buf = [] \/
      exists i, bmp_Decode W buf = inl i /\ png_Encode W i = ([], None)
  end /\
  (supportedImageTypes W ImageTypeUnknown = false ->
   buf <> [] ->
   (forall i, png_Encode W i <> ([], None)) ->
   exists r, result (vipsLoadFromBuffer W buf o) = Return r).
Proof.
  assert (Hmain :
    match result (vipsLoadFromBuffer W buf o) with
    | Return _ => True
    | PanicSliceBounds => False
    | PanicValue e =>
        e = ErrUnsupportedImageFormat W /\
        supportedImageTypes W ImageTypeUnknown = true /\
        exists sniffed,
          DetermineImageType (xmlDecode W) buf = Some sniffed /\
          overrideImageType sniffed (resolveOptions sniffed o)
          = ImageTypeUnknown
    | PanicIndexOutOfRange =>
        buf = [] \/
        exists i, bmp_Decode W buf = inl i /\ png_Encode W i = ([], None)
    end).
  { destruct (vipsLoadFromBuffer_cases buf o)
      as (sniffed & Hd & [(e & _ & ->) | (src' & t' & Hp & Hnb & ->)]).
    { exact I. }
    apply preprocess_inv in Hp.
    destruct (checkAndLoad_cases t' src' (resolveOptions sniffed o))
      as [(Hs & ->) | [(Hs & Hsw & ->) | [(Hs & Hsw & Hsrc & ->)
         | (Hs & Hsw & Hsrc & c0 & Hf & Hcs & ->)]]];
      unfold result; simpl snd; try exact I.
    - apply inSwitch_false in Hsw as [-> | ->]; [|congruence].
      split; [reflexivity|]. split; [exact Hs|].
      exists sniffed. split; [exact Hd|].
      destruct Hp as [(_ & _ & Ht) | (_ & Ht & _)]; congruence.
    - subst src'.
      destruct Hp as [(_ & Hsrc & _) | (_ & _ & i & Hb & He)];
        [left; now symmetry | right; now exists i]. }
  split; [exact Hmain|].
  intros Hu Hbuf Henc.
  destruct (result (vipsLoadFromBuffer W buf o)) as [r| | |e].
  - now exists r.
  - destruct Hmain as [H | (i & _ & H)]; [contradiction|].
    now apply Henc in H.
  - contradiction.
  - destruct Hmain as (_ & H & _). congruence.
Qed.

(** X10. An empty buffer forced by the mutators to a format the switch
    has a case for and the table marks supported makes
    [vipsLoadFromBuffer] panic on [&src[0]], after the capability check
    and before any load primitive is called. *)
Theorem vipsLoadFromBuffer_empty_forced
        (o : list ImportOption) (t : ImageType) :
  imageType (resolveOptions ImageTypeUnknown o) = t ->
  inSwitch t = true ->
  supportedImageTypes W t = true ->
  vipsLoadFromBuffer W [] o =
  (EvIsTypeSupported t
     :: logsBeforeLoad t (resolveOptions ImageTypeUnknown o),
   PanicIndexOutOfRange).
Proof.
  intros Ht Hsw Hs.
  assert (Hd : DetermineImageType (xmlDecode W) [] = Some ImageTypeUnknown)
    by reflexivity.
  rewrite (vipsLoadFromBuffer_sniffed _ _ _ W [] o _ Hd).
  assert (Hu : t <> ImageTypeUnknown) by (intros ->; discriminate Hsw).
  assert (Hb : t <> ImageTypeBMP) by (intros ->; discriminate Hsw).
  rewrite (overrideImageType_set ImageTypeUnknown
             (resolveOptions ImageTypeUnknown o)) by congruence.
  rewrite Ht, (preprocess_other _ _ _ W t [] Hb).
  destruct (checkAndLoad_cases t [] (resolveOptions ImageTypeUnknown o))
    as [(Hs' & _) | [(_ & Hsw' & _) | [(_ & _ & _ & H)
       | (_ & _ & Hsrc & _)]]]; congruence.
Qed.

(** X11. A buffer the sniffer does not recognise, loaded without a
    format override under a table that does not support Unknown, gives
    [ErrUnsupportedImageFormat] with a nil handle after one capability
    check and one log message; buffers shorter than 12 bytes are such
    buffers. *)
Theorem vipsLoadFromBuffer_unrecognised
        (buf : bytes) (o : list ImportOption) :
  DetermineImageType (xmlDecode W) buf = Some ImageTypeUnknown ->
  imageType (resolveOptions ImageTypeUnknown o) = ImageTypeUnknown ->
  supportedImageTypes W ImageTypeUnknown = false ->
  vipsLoadFromBuffer W buf o =
  ([EvIsTypeSupported ImageTypeUnknown;
    EvLog (LogFailedToUnderstand (len buf))],
   Return (None, ImageTypeUnknown, Some (ErrUnsupportedImageFormat W))).
Proof.
  intros Hd Ho Hs.
  rewrite (vipsLoadFromBuffer_sniffed _ _ _ W buf o _ Hd).
  rewrite overrideImageType_unset by exact Ho.
  rewrite (preprocess_other _ _ _ W ImageTypeUnknown buf) by discriminate.
  now apply checkAndLoad_unsupported.
Qed.

(** X12. Each format receives only its own parameters: two lists of
    mutators that leave the same format override and agree on the
    parameters the case of the resolved format passes on (none for PNG
    and for a BMP, which is loaded as PNG; [shrink] for WEBP; ...) give
    the same run, whatever else they set. *)
Theorem vipsLoadFromBuffer_forwarding
        (buf : bytes) (o1 o2 : list ImportOption) :
  exists sniffed,
    DetermineImageType (xmlDecode W) buf = Some sniffed /\
    (imageType (resolveOptions sniffed o1)
     = imageType (resolveOptions sniffed o2) ->
     sameForwarded (overrideImageType sniffed (resolveOptions sniffed o1))
                   (params (resolveOptions sniffed o1))
                   (params (resolveOptions sniffed o2)) ->
     vipsLoadFromBuffer W buf o1 = vipsLoadFromBuffer W buf o2).
Proof.
  destruct (DetermineImageType_returns (xmlDecode W) buf) as [sniffed Hd].
  exists sniffed. split; [exact Hd|]. intros Ht Hsame.
  rewrite !(vipsLoadFromBuffer_sniffed _ _ _ W buf _ _ Hd).
  assert (Hov : overrideImageType sniffed (resolveOptions sniffed o2)
                = overrideImageType sniffed (resolveOptions sniffed o1)).
  { unfold overrideImageType. now rewrite Ht. }
  rewrite Hov.
  destruct (preprocess W _ buf) as [[src' t']|e] eqn:Hp; [|reflexivity].
  apply checkAndLoad_forwarded.
  apply preprocess_inv in Hp as [(_ & _ & ->) | (_ & -> & _)];
    [exact Hsame | exact I].
Qed.

(** X13. The default of [autorotate] follows the sniffed tag, not the
    override: when the mutators leave the parameters alone, the JPEG
    primitive receives the defaults [shrink = 1], [fail = false] and
    [autorotate] true exactly when the buffer was sniffed as HEIF, and
    the TIFF primitive the same [autorotate], whatever format was
    forced. *)
Theorem vipsLoadFromBuffer_autorotate_sniffed
        (buf : bytes) (o : list ImportOption) :
  Forall keepsParams o ->
  exists sniffed,
    DetermineImageType (xmlDecode W) buf = Some sniffed /\
    params (resolveOptions sniffed o) = params (defaultOptions sniffed) /\
    forall c,
      In (EvLoad c) (trace (vipsLoadFromBuffer W buf o)) ->
      match c with
      | load_jpeg_buffer _ sh f a =>
          sh = C_int 1 /\
          f = C_int (boolToInt W false) /\
          a = C_int (boolToInt W (ImageType_eqb sniffed ImageTypeHEIF))
      | load_tiff_buffer _ _ _ a _ =>
          a = C_int (boolToInt W (ImageType_eqb sniffed ImageTypeHEIF))
      | _ => True
      end.
Proof.
  intros Ho.
  destruct (vipsLoadFromBuffer_cases buf o)
    as (sniffed & Hd & Hrun).
  exists sniffed. split; [exact Hd|].
  assert (Hp : params (resolveOptions sniffed o)
               = params (defaultOptions sniffed))
    by now apply applyOptions_keepsParams.
  split; [exact Hp|]. intros c Hin.
  destruct Hrun as [(e & _ & Heq) | (src' & t' & _ & _ & Heq)];
    rewrite Heq in Hin; [destruct Hin|].
  apply checkAndLoad_autorotate in Hin. rewrite Hp in Hin. exact Hin.
Qed.

(** X14. The last mutator wins on the format: after any list of
    mutators, one more mutator that sets the override to [t], neither
    Unknown nor BMP, makes every capability check and every load of the
    run be about [t] and the caller's buffer. *)
Theorem vipsLoadFromBuffer_last_override
        (buf : bytes) (o : list ImportOption) (m : ImportOption)
        (t : ImageType) :
  (forall options, imageType (m options) = t) ->
  t <> ImageTypeUnknown -> t <> ImageTypeBMP ->
  (forall sniffed, resolveOptions sniffed (o ++ [m])
                   = m (resolveOptions sniffed o)) /\
  forall ev, In ev (trace (vipsLoadFromBuffer W buf (o ++ [m]))) ->
             eventOn t buf ev.
Proof.
  intros Hm Hu Hb.
  assert (Hres : forall sniffed, resolveOptions sniffed (o ++ [m])
                                 = m (resolveOptions sniffed o)).
  { intros sniffed. unfold resolveOptions, applyOptions.
    now rewrite fold_left_app. }
  split; [exact Hres|].
  destruct (DetermineImageType_returns (xmlDecode W) buf) as [sniffed Hd].
  rewrite (vipsLoadFromBuffer_sniffed _ _ _ W buf _ _ Hd).
  assert (Ht : imageType (resolveOptions sniffed (o ++ [m])) = t)
    by (rewrite Hres; apply Hm).
  rewrite overrideImageType_set by congruence.
  rewrite Ht.
  rewrite (preprocess_other _ _ _ W t buf Hb).
  intros ev. apply checkAndLoad_trace.
Qed.

(** X15. The sniffer never answers Magick, so [load_magick_buffer] is
    reached only through a format override: when the mutators leave the
    override unset, every load primitive called is the one of the
    sniffed format, or the PNG one for a buffer sniffed as BMP, and
    never the Magick one. *)
Theorem vipsLoadFromBuffer_magick_needs_override
        (buf : bytes) (o : list ImportOption) :
  exists sniffed,
    DetermineImageType (xmlDecode W) buf = Some sniffed /\
    sniffed <> ImageTypeMagick /\
    (imageType (resolveOptions sniffed o) = ImageTypeUnknown ->
     forall c,
       In (EvLoad c) (trace (vipsLoadFromBuffer W buf o)) ->
       call_format c <> ImageTypeMagick /\
       call_format c = (if ImageType_eqb sniffed ImageTypeBMP
                        then ImageTypePNG else sniffed)).
Proof.
  destruct (vipsLoadFromBuffer_cases buf o) as (sniffed & Hd & Hrun).
  exists sniffed. split; [exact Hd|].
  assert (Hm : sniffed <> ImageTypeMagick).
  { intros ->. exact (DetermineImageType_not_magick _ _ Hd). }
  split; [exact Hm|]. intros Ho c Hin.
  cbv zeta in Hrun. rewrite (overrideImageType_unset sniffed _ Ho) in Hrun.
  destruct Hrun as [(e & _ & Heq) | (src' & t' & Hp & _ & Heq)];
    rewrite Heq in Hin; [destruct Hin|].
  apply checkAndLoad_trace in Hin. destruct Hin as [Hf _].
  rewrite Hf.
  apply preprocess_inv in Hp as [(Hnb & _ & ->) | (-> & -> & _)].
  - apply ImageType_eqb_neq in Hnb. rewrite Hnb. auto.
  - split; [discriminate | reflexivity].
Qed.

End LoaderRuns.

(** * Saving *)

Lemma C_int_in_range (x : Z) :
  (- 2 ^ 31 <= x < 2 ^ 31)%Z -> C_int x = x.
Proof.
  intros H. unfold C_int.
  rewrite Z.mod_small by lia. lia.
Qed.

Section SaverRuns.

Variables VipsImage Ptr GoError : Type.
Variable SW : SaveWorld VipsImage Ptr GoError.

Lemma saveWith_shape (name : string) (c : save_call VipsImage) :
  exists code ptr cLen,
    nativeSave SW c = (code, ptr, cLen) /\
    (code <> 0%Z ->
     saveWith SW name c =
     ([EvIncOpCounter name; EvSave c; EvHandleSaveBufferError ptr],
      ([], handleSaveBufferError SW ptr))) /\
    (code = 0%Z ->
     saveWith SW name c =
     ([EvIncOpCounter name; EvSave c;
       EvGoBytes ptr (C_int cLen); EvFreePointer ptr],
      (GoBytes SW ptr (C_int cLen), None))).
Proof.
  unfold saveWith. destruct (nativeSave SW c) as [[code ptr] cLen].
  exists code, ptr, cLen. split; [reflexivity|].
  destruct (Z.eqb_spec code 0) as [->|Hne]; simpl.
  - split; [intros H; now contradiction H | reflexivity].
  - split; [reflexivity | intros H; contradiction].
Qed.


End SaverRuns.

(** * The further properties on literal inputs *)

Example sniff_pdf_with_webp_at_8 :
  DetermineImageType sampleXml pdfWebp = Some ImageTypeWEBP.
Proof. reflexivity. Qed.

Lemma DetermineImageType_first12_witness :
  12 <= len sampleJpeg /\ 12 <= len sampleJpegTail /\
  firstn 12 sampleJpeg = firstn 12 sampleJpegTail /\
  DetermineImageType sampleXml sampleJpeg = Some ImageTypeJPEG /\
  DetermineImageType (fun _ => mkXmlDecoded false "svg") sampleJpegTail
  = Some ImageTypeJPEG.
Proof.
  assert (H1 : 12 <= len sampleJpeg) by (vm_compute; lia).
  assert (H2 : 12 <= len sampleJpegTail) by (vm_compute; lia).
  split; [exact H1|]. split; [exact H2|]. split; [reflexivity|].
  split; [reflexivity|].
  apply (DetermineImageType_first12 sampleXml
           (fun _ => mkXmlDecoded false "svg")
           sampleJpeg sampleJpegTail ImageTypeJPEG H1 H2 eq_refl).
  - simpl. auto.
  - reflexivity.
Defined.

Lemma vipsLoadFromBuffer_loads_only_supported_witness :
  In (EvLoad (load_jpeg_buffer sampleJpeg 1 0 0))
     (trace (vipsLoadFromBuffer sampleWorld sampleJpeg [])) /\
  supportedImageTypes sampleWorld ImageTypeJPEG = true.
Proof.
  assert (Hin : In (EvLoad (load_jpeg_buffer sampleJpeg 1 0 0))
                   (trace (vipsLoadFromBuffer sampleWorld sampleJpeg [])))
    by (simpl; auto).
  split; [exact Hin|].
  exact (proj1 (proj2 (proj2 (vipsLoadFromBuffer_loads_only_supported
                                _ _ _ sampleWorld sampleJpeg []))
                      _ Hin)).
Defined.

Lemma vipsLoadFromBuffer_panics_witness :
  supportedImageTypes sampleWorld ImageTypeUnknown = false /\
  sampleJpeg <> [] /\
  exists r,
    result (vipsLoadFromBuffer sampleWorld sampleJpeg
                               [setImageType ImageTypeTIFF]) = Return r.
Proof.
  split; [reflexivity|]. split; [discriminate|].
  apply (proj2 (vipsLoadFromBuffer_panics _ _ _ sampleWorld sampleJpeg
                  [setImageType ImageTypeTIFF])).
  - reflexivity.
  - discriminate.
  - intros i. discriminate.
Defined.

Lemma vipsLoadFromBuffer_empty_forced_witness :
  inSwitch ImageTypePNG = true /\
  supportedImageTypes sampleWorld ImageTypePNG = true /\
  vipsLoadFromBuffer sampleWorld [] [setImageType ImageTypePNG] =
  ([EvIsTypeSupported ImageTypePNG], PanicIndexOutOfRange).
Proof.
  split; [reflexivity|]. split; [reflexivity|].
  exact (vipsLoadFromBuffer_empty_forced _ _ _ sampleWorld
           [setImageType ImageTypePNG] ImageTypePNG
           eq_refl eq_refl eq_refl).
Defined.

Lemma vipsLoadFromBuffer_unrecognised_witness :
  DetermineImageType sampleXml threeBytes = Some ImageTypeUnknown /\
  vipsLoadFromBuffer sampleWorld threeBytes [] =
  ([EvIsTypeSupported ImageTypeUnknown; EvLog (LogFailedToUnderstand 3)],
   Return (None, ImageTypeUnknown, Some "unsupported image format"%string)).
Proof.
  split; [reflexivity|].
  exact (vipsLoadFromBuffer_unrecognised _ _ _ sampleWorld threeBytes []
           eq_refl eq_refl eq_refl).
Defined.

Lemma vipsLoadFromBuffer_forwarding_witness :
  page (params (resolveOptions ImageTypePNG [setPage 5])) = 5%Z /\
  vipsLoadFromBuffer sampleWorld samplePng [] =
  vipsLoadFromBuffer sampleWorld samplePng [setPage 5].
Proof.
  split; [reflexivity|].
  destruct (vipsLoadFromBuffer_forwarding _ _ _ sampleWorld samplePng
              [] [setPage 5]) as (sniffed & Hd & Hsame).
  assert (Hs : sniffed = ImageTypePNG).
  { cut (Some sniffed = Some ImageTypePNG); [congruence|].
    rewrite <- Hd. reflexivity. }
  subst sniffed. apply Hsame; [reflexivity | exact I].
Defined.

Lemma setImageType_keepsParams (t : ImageType) : keepsParams (setImageType t).
Proof. intros options. reflexivity. Qed.

Lemma vipsLoadFromBuffer_autorotate_sniffed_witness :
  Forall keepsParams [setImageType ImageTypeJPEG] /\
  DetermineImageType sampleXml ftypAvif = Some ImageTypeHEIF /\
  trace (vipsLoadFromBuffer sampleWorld ftypAvif [setImageType ImageTypeJPEG])
  = [EvIsTypeSupported ImageTypeJPEG;
     EvLoad (load_jpeg_buffer ftypAvif 1 0 1)] /\
  exists sniffed,
    DetermineImageType sampleXml ftypAvif = Some sniffed /\
    params (resolveOptions sniffed [setImageType ImageTypeJPEG])
    = params (defaultOptions sniffed).
Proof.
  assert (Hk : Forall keepsParams [setImageType ImageTypeJPEG]).
  { constructor; [apply setImageType_keepsParams | constructor]. }
  split; [exact Hk|]. split; [reflexivity|]. split; [reflexivity|].
  destruct (vipsLoadFromBuffer_autorotate_sniffed _ _ _ sampleWorld ftypAvif
              [setImageType ImageTypeJPEG] Hk) as (sniffed & Hd & Hp & _).
  exists sniffed. split; [exact Hd | exact Hp].
Defined.

Lemma vipsLoadFromBuffer_last_override_witness :
  trace (vipsLoadFromBuffer sampleWorld sampleJpeg
           ([setImageType ImageTypePNG] ++ [setImageType ImageTypeGIF]))
  = [EvIsTypeSupported ImageTypeGIF;
     EvLoad (load_gif_buffer sampleJpeg 0 1)] /\
  eventOn ImageTypeGIF sampleJpeg (EvLoad (load_gif_buffer sampleJpeg 0 1)).
Proof.
  split; [reflexivity|].
  apply (proj2 (vipsLoadFromBuffer_last_override _ _ _ sampleWorld sampleJpeg
                  [setImageType ImageTypePNG] (setImageType ImageTypeGIF)
                  ImageTypeGIF
                  (fun _ => eq_refl)
                  ltac:(discriminate) ltac:(discriminate))).
  simpl. auto.
Defined.

Lemma vipsLoadFromBuffer_magick_needs_override_witness :
  exists sniffed,
    DetermineImageType sampleXml validBmp = Some sniffed /\
    sniffed <> ImageTypeMagick /\
    forall c,
      In (EvLoad c) (trace (vipsLoadFromBuffer sampleWorld validBmp [])) ->
      call_format c <> ImageTypeMagick.
Proof.
  destruct (vipsLoadFromBuffer_magick_needs_override _ _ _ sampleWorld
              validBmp []) as (sniffed & Hd & Hm & Hloads).
  exists sniffed. split; [exact Hd|]. split; [exact Hm|].
  intros c Hin. exact (proj1 (Hloads eq_refl c Hin)).
Defined.

Example save_png_succeeds :
  vipsSavePNGToBuffer sampleSaveWorld None true 6 false =
  ([EvIncOpCounter "save_png_buffer";
    EvSave (save_png_buffer None 1 6 0);
    EvGoBytes 1 4; EvFreePointer 1],
   (pngHeader, None)).
Proof. reflexivity. Qed.

Example save_jpeg_fails :
  vipsSaveJPEGToBuffer sampleSaveWorld None 80 true false =
  ([EvIncOpCounter "save_jpeg_buffer";
    EvSave (save_jpeg_buffer None 1 80 0);
    EvHandleSaveBufferError 0],
   ([], Some "vips: save failed"%string)).
Proof. reflexivity. Qed.

